(** * VFIformer: the training entry point [train.py]

    A shallow embedding of [init_dist], [set_random_seed] and [main] of
    [train.py], and the properties of the orchestration layer they
    implement: device-id parsing and binding, the distributed set-up, the
    rank-gated creation of the run's directories and the order of the
    steps.

    Python integers are [Z]; strings are [string] (ASCII text); the
    interpreter state the script acts on (environment variables,
    multiprocessing start method, CUDA device, process group, file system,
    log sinks) is an explicit record [World] threaded through an
    exception monad. Every call with an effect appends an [Event] to the
    world's trace, in program order. *)

From Stdlib Require Import ZArith String Ascii List Bool Lia.
From stdpp Require Import gmap strings list fin_maps.

Open Scope Z_scope.
Open Scope string_scope.
Open Scope list_scope.

(** ** Python built-ins used by the script *)

Module Py.

(** Exceptions the script can raise (none of them is caught in [train.py]). *)
Inductive OsErrorKind :=
  | FileExistsError
  | FileNotFoundError
  | NotADirectoryError
  | PermissionError.

Inductive Exn :=
  | ValueError (what : string)
  | KeyError (key : string)
  | ZeroDivisionError
  | RuntimeError (what : string)
  | OSError (kind : OsErrorKind) (path : string).

(** [str.split(sep)] with a one-character separator: every occurrence of
    [sep] ends a field, so the result is never empty and [''.split(',')]
    is [['']]. *)
Fixpoint split (sep : ascii) (s : string) : list string :=
  match s with
  | EmptyString => [EmptyString]
  | String c s' =>
      if Ascii.eqb c sep then EmptyString :: split sep s'
      else match split sep s' with
           | [] => [String c EmptyString]
           | f :: fs => String c f :: fs
           end
  end.

(** White space that [int] strips on both sides (ASCII part of
    [str.isspace]): TAB, LF, VT, FF, CR, FS, GS, RS, US and the space. *)
Definition is_space (c : ascii) : bool :=
  let n := nat_of_ascii c in
  (Nat.leb 9 n && Nat.leb n 13) || (Nat.leb 28 n && Nat.leb n 32).

Definition is_digit (c : ascii) : bool :=
  let n := nat_of_ascii c in Nat.leb 48 n && Nat.leb n 57.

Definition digit_value (c : ascii) : Z := Z.of_nat (nat_of_ascii c) - 48.

Fixpoint lstrip (l : list ascii) : list ascii :=
  match l with
  | c :: l' => if is_space c then lstrip l' else l
  | [] => []
  end.

Definition strip (l : list ascii) : list ascii :=
  rev (lstrip (rev (lstrip l))).

(** Decimal digits, where single underscores may separate digits
    ([int('1_000') == 1000]); [prev] tells whether the previous character
    was a digit. *)
Fixpoint digits (acc : Z) (prev : bool) (l : list ascii) : option Z :=
  match l with
  | [] => if prev then Some acc else None
  | c :: l' =>
      if is_digit c then digits (10 * acc + digit_value c) true l'
      else if Ascii.eqb c "_" then
             if prev then digits acc false l' else None
           else None
  end.

(** [int(s)] in base 10 on ASCII text: [None] stands for [ValueError]. *)
Definition int (s : string) : option Z :=
  match strip (list_ascii_of_string s) with
  | "+"%char :: l => digits 0 false l
  | "-"%char :: l => Z.opp <$> digits 0 false l
  | l => digits 0 false l
  end.

(** The error of [int] on text it refuses. *)
Definition invalid_literal (s : string) : Exn :=
  ValueError ("invalid literal for int() with base 10: '" +:+ s +:+ "'").

(** [a % b] on integers: the result has the sign of [b], as [Z.modulo];
    [None] stands for [ZeroDivisionError]. *)
Definition mod_ (a b : Z) : option Z :=
  if Z.eqb b 0 then None else Some (a mod b).

(** [str(n)] for an integer. *)
Fixpoint pos_digits (fuel : nat) (n : Z) (acc : string) : string :=
  match fuel with
  | O => acc
  | S fuel' =>
      let acc' := String (ascii_of_nat (Z.to_nat (n mod 10) + 48)) acc in
      if Z.ltb n 10 then acc' else pos_digits fuel' (n / 10) acc'
  end.

Definition str_of_int (n : Z) : string :=
  if Z.ltb n 0
  then String "-" (pos_digits (S (Z.to_nat (Z.log2 (- n)))) (- n) EmptyString)
  else pos_digits (S (Z.to_nat (Z.log2 n))) n EmptyString.

End Py.

(** ** Paths: [os.path.join] and [os.path.split] (POSIX) *)

Module Path.

Definition sep : ascii := "/"%char.

Definition startswith_sep (s : string) : bool :=
  match s with
  | String c _ => Ascii.eqb c sep
  | EmptyString => false
  end.

Fixpoint endswith_sep (s : string) : bool :=
  match s with
  | EmptyString => false
  | String c EmptyString => Ascii.eqb c sep
  | String _ s' => endswith_sep s'
  end.

Definition is_empty (s : string) : bool :=
  match s with EmptyString => true | _ => false end.

(** [os.path.join(a, b)]: an absolute [b] replaces [a]; otherwise the two
    are glued with exactly one separator, none when [a] is empty or ends
    with one. *)
Definition join (a b : string) : string :=
  if startswith_sep b then b
  else if is_empty a || endswith_sep a then a +:+ b
  else a +:+ String sep b.

(** [p[:i], p[i:]] for [i = p.rfind('/') + 1]. *)
Fixpoint cut (p : string) : string * string :=
  match p with
  | EmptyString => (EmptyString, EmptyString)
  | String c p' =>
      let '(h, t) := cut p' in
      if negb (is_empty h) then (String c h, t)
      else if Ascii.eqb c sep then (String c EmptyString, t)
      else (EmptyString, String c t)
  end.

Fixpoint all_sep (s : string) : bool :=
  match s with
  | EmptyString => true
  | String c s' => Ascii.eqb c sep && all_sep s'
  end.

(** [s.rstrip('/')]. *)
Fixpoint rstrip_sep (s : string) : string :=
  match s with
  | EmptyString => EmptyString
  | String c s' =>
      if all_sep s then EmptyString else String c (rstrip_sep s')
  end.

(** [os.path.split(p)]: the head loses its trailing separators unless it
    consists of separators only. *)
Definition split (p : string) : string * string :=
  let '(h, t) := cut p in
  if negb (is_empty h) && negb (all_sep h) then (rstrip_sep h, t) else (h, t).

End Path.

(** ** The command line and the resolved options *)

(** [--launcher] has [choices=['none', 'pytorch']]. *)
Inductive Launcher := LauncherNone | LauncherPytorch.

(** The namespace [parser.parse_args()] returns. The options [main] reads
    are fields; the remaining ones (network, data, optimiser, loss, resume
    and logging options) are only handed on to the trainer and are kept as
    the text given for them, by option name. *)
Record Args := {
  arg_random_seed : Z;
  arg_name : string;
  arg_phase : string;
  arg_gpu_ids : string;
  arg_launcher : Launcher;
  arg_local_rank : Z;
  arg_save_folder : string;
  arg_others : list (string * string)
}.

(** The namespace after [main] has rewritten [gpu_ids] and [save_folder]
    and added [dist], [rank], [world_size] (multi-process mode only) and
    the two directories. *)
Record Opts := {
  parsed : Args;
  gpu_ids : list Z;
  dist : bool;
  rank : Z;
  world_size : option Z;
  save_folder : string;
  vis_save_dir : string;
  snapshot_save_dir : string
}.

(** ** The world of the process *)

Inductive StartMethod := Fork | Spawn | Forkserver.

Inductive Node := Dir | File.

Inductive Event :=
  | EvParseArgs
  | EvSeedRandom (seed : Z)
  | EvSeedNumpy (seed : Z)
  | EvSeedTorch (seed : Z)
  | EvSeedCuda (seed : Z)
  | EvSetDevice (device : Z)
  | EvPrint (text : string)
  | EvGetStartMethod
  | EvSetStartMethod (m : StartMethod)
  | EvEnviron (key : string)
  | EvDeviceCount
  | EvInitProcessGroup (backend : string)
  | EvGetWorldSize
  | EvGetRank
  | EvStrftime
  | EvExists (path : string)
  | EvMakedirs (path : string)
  | EvMkdir (path : string)
  | EvSetupLogger (path : string)
  | EvPrintArgs (o : Opts)
  | EvCudnnBenchmark
  | EvTrainer (o : Opts)
  | EvTrain.

Record Seeds := {
  seed_random : option Z;
  seed_numpy : option Z;
  seed_torch : option Z;
  seed_cuda : option Z
}.

(** What the script reads and writes outside its own variables.
    [rendezvous], [clock] and [driver_fails] are given by the environment:
    the (world size, rank) the communication group agrees on ([None] when
    joining fails), the start time as [time.strftime('%Y%m%d_%H%M%S')]
    prints it, and whether the trainer raises. *)
Record World := {
  environ : gmap string string;
  start_method : option StartMethod;
  device_count : Z;
  current_device : option Z;
  rendezvous : option (Z * Z);
  process_group : option (Z * Z);
  files : gmap string Node;
  writable : bool;
  clock : string;
  log_sinks : list string;
  seeds : Seeds;
  cudnn_benchmark : bool;
  driver_fails : bool;
  trace : list Event
}.

Definition with_trace (t : list Event) (w : World) : World :=
  {| environ := environ w; start_method := start_method w;
     device_count := device_count w; current_device := current_device w;
     rendezvous := rendezvous w; process_group := process_group w;
     files := files w; writable := writable w; clock := clock w;
     log_sinks := log_sinks w; seeds := seeds w;
     cudnn_benchmark := cudnn_benchmark w; driver_fails := driver_fails w;
     trace := t |}.

Definition with_start_method (m : option StartMethod) (w : World) : World :=
  {| environ := environ w; start_method := m;
     device_count := device_count w; current_device := current_device w;
     rendezvous := rendezvous w; process_group := process_group w;
     files := files w; writable := writable w; clock := clock w;
     log_sinks := log_sinks w; seeds := seeds w;
     cudnn_benchmark := cudnn_benchmark w; driver_fails := driver_fails w;
     trace := trace w |}.

Definition with_current_device (d : option Z) (w : World) : World :=
  {| environ := environ w; start_method := start_method w;
     device_count := device_count w; current_device := d;
     rendezvous := rendezvous w; process_group := process_group w;
     files := files w; writable := writable w; clock := clock w;
     log_sinks := log_sinks w; seeds := seeds w;
     cudnn_benchmark := cudnn_benchmark w; driver_fails := driver_fails w;
     trace := trace w |}.

Definition with_process_group (g : option (Z * Z)) (w : World) : World :=
  {| environ := environ w; start_method := start_method w;
     device_count := device_count w; current_device := current_device w;
     rendezvous := rendezvous w; process_group := g;
     files := files w; writable := writable w; clock := clock w;
     log_sinks := log_sinks w; seeds := seeds w;
     cudnn_benchmark := cudnn_benchmark w; driver_fails := driver_fails w;
     trace := trace w |}.

Definition with_files (f : gmap string Node) (w : World) : World :=
  {| environ := environ w; start_method := start_method w;
     device_count := device_count w; current_device := current_device w;
     rendezvous := rendezvous w; process_group := process_group w;
     files := f; writable := writable w; clock := clock w;
     log_sinks := log_sinks w; seeds := seeds w;
     cudnn_benchmark := cudnn_benchmark w; driver_fails := driver_fails w;
     trace := trace w |}.

Definition with_log_sinks (l : list string) (w : World) : World :=
  {| environ := environ w; start_method := start_method w;
     device_count := device_count w; current_device := current_device w;
     rendezvous := rendezvous w; process_group := process_group w;
     files := files w; writable := writable w; clock := clock w;
     log_sinks := l; seeds := seeds w;
     cudnn_benchmark := cudnn_benchmark w; driver_fails := driver_fails w;
     trace := trace w |}.

Definition with_seeds (s : Seeds) (w : World) : World :=
  {| environ := environ w; start_method := start_method w;
     device_count := device_count w; current_device := current_device w;
     rendezvous := rendezvous w; process_group := process_group w;
     files := files w; writable := writable w; clock := clock w;
     log_sinks := log_sinks w; seeds := s;
     cudnn_benchmark := cudnn_benchmark w; driver_fails := driver_fails w;
     trace := trace w |}.

Definition with_cudnn_benchmark (b : bool) (w : World) : World :=
  {| environ := environ w; start_method := start_method w;
     device_count := device_count w; current_device := current_device w;
     rendezvous := rendezvous w; process_group := process_group w;
     files := files w; writable := writable w; clock := clock w;
     log_sinks := log_sinks w; seeds := seeds w;
     cudnn_benchmark := b; driver_fails := driver_fails w;
     trace := trace w |}.

(** ** Computations that may raise *)

Inductive Result (A : Type) :=
  | Ok (a : A) (w : World)
  | Raise (e : Py.Exn) (w : World).
Arguments Ok {A} a w.
Arguments Raise {A} e w.

Definition M (A : Type) : Type := World -> Result A.

Definition ret {A} (a : A) : M A := fun w => Ok a w.

Definition bind {A B} (m : M A) (k : A -> M B) : M B :=
  fun w => match m w with
           | Ok a w' => k a w'
           | Raise e w' => Raise e w'
           end.

Definition raise {A} (e : Py.Exn) : M A := fun w => Raise e w.

Definition gets {A} (f : World -> A) : M A := fun w => Ok (f w) w.

Definition modify (f : World -> World) : M unit := fun w => Ok tt (f w).

Definition emit (e : Event) : M unit :=
  modify (fun w => with_trace (trace w ++ [e]) w).

(** [try: m  except FileExistsError: pass]. *)
Definition except_file_exists (m : M unit) : M unit :=
  fun w => match m w with
           | Raise (Py.OSError Py.FileExistsError _) w' => Ok tt w'
           | r => r
           end.

Definition final {A} (r : Result A) : World :=
  match r with Ok _ w => w | Raise _ w => w end.

Definition raised {A} (r : Result A) : option Py.Exn :=
  match r with Ok _ _ => None | Raise e _ => Some e end.

#[global] Instance M_ret : MRet M := @ret.
#[global] Instance M_bind : MBind M := fun A B k m => bind m k.

(** ** Library calls of the script, as far as the script depends on them *)

(** *** [os.environ] *)

Definition environ_get (key : string) : M string :=
  emit (EvEnviron key);;
  env ← gets environ;
  match env !! key with
  | Some v => mret v
  | None => raise (Py.KeyError key)
  end.

(** *** [torch.multiprocessing] *)

(** [mp.get_start_method(allow_none=True)]: the method fixed so far, if
    any; nothing is fixed by asking. *)
Definition get_start_method : M (option StartMethod) :=
  emit EvGetStartMethod;;
  gets start_method.

(** [mp.set_start_method(m)] (no [force]): refused once a method is fixed. *)
Definition set_start_method (m : StartMethod) : M unit :=
  emit (EvSetStartMethod m);;
  cur ← gets start_method;
  match cur with
  | Some _ => raise (Py.RuntimeError "context has already been set")
  | None => modify (with_start_method (Some m))
  end.

(** *** [torch.cuda] *)

Definition cuda_device_count : M Z :=
  emit EvDeviceCount;;
  gets device_count.

(** [torch.cuda.set_device(d)]: nothing happens for a negative [d]; a [d]
    that is no visible device is an error. *)
Definition cuda_set_device (d : Z) : M unit :=
  emit (EvSetDevice d);;
  n ← gets device_count;
  if Z.ltb d 0 then mret tt
  else if Z.ltb d n then modify (with_current_device (Some d))
  else raise (Py.RuntimeError "CUDA error: invalid device ordinal").

(** *** [torch.distributed] *)

Definition init_process_group (backend : string) : M unit :=
  emit (EvInitProcessGroup backend);;
  cur ← gets process_group;
  match cur with
  | Some _ =>
      raise (Py.RuntimeError "trying to initialize the default process group twice!")
  | None =>
      r ← gets rendezvous;
      match r with
      | Some g => modify (with_process_group (Some g))
      | None => raise (Py.RuntimeError "process group initialization failed")
      end
  end.

Definition get_world_size : M Z :=
  emit EvGetWorldSize;;
  g ← gets process_group;
  match g with
  | Some (n, _) => mret n
  | None => raise (Py.RuntimeError "Default process group has not been initialized")
  end.

Definition get_rank : M Z :=
  emit EvGetRank;;
  g ← gets process_group;
  match g with
  | Some (_, r) => mret r
  | None => raise (Py.RuntimeError "Default process group has not been initialized")
  end.

(** *** Random number generators *)

Definition random_seed (seed : Z) : M unit :=
  emit (EvSeedRandom seed);;
  modify (fun w => with_seeds
    {| seed_random := Some seed; seed_numpy := seed_numpy (seeds w);
       seed_torch := seed_torch (seeds w); seed_cuda := seed_cuda (seeds w) |} w).

(** [np.random.seed] takes a seed between 0 and 2**32 - 1 only. *)
Definition np_random_seed (seed : Z) : M unit :=
  emit (EvSeedNumpy seed);;
  if Z.leb 0 seed && Z.ltb seed (2 ^ 32) then
    modify (fun w => with_seeds
      {| seed_random := seed_random (seeds w); seed_numpy := Some seed;
         seed_torch := seed_torch (seeds w); seed_cuda := seed_cuda (seeds w) |} w)
  else raise (Py.ValueError "Seed must be between 0 and 2**32 - 1").

Definition torch_manual_seed (seed : Z) : M unit :=
  emit (EvSeedTorch seed);;
  modify (fun w => with_seeds
    {| seed_random := seed_random (seeds w); seed_numpy := seed_numpy (seeds w);
       seed_torch := Some seed; seed_cuda := seed_cuda (seeds w) |} w).

Definition cuda_manual_seed_all (seed : Z) : M unit :=
  emit (EvSeedCuda seed);;
  modify (fun w => with_seeds
    {| seed_random := seed_random (seeds w); seed_numpy := seed_numpy (seeds w);
       seed_torch := seed_torch (seeds w); seed_cuda := Some seed |} w).

(** *** [time] and standard output *)

Definition strftime : M string :=
  emit EvStrftime;;
  gets clock.

Definition print (text : string) : M unit := emit (EvPrint text).

(** *** The file system: [os.path.exists], [os.mkdir], [os.makedirs] *)

(** The file system is the map from the paths that exist to what they
    are, paths being told apart as text. The current directory ["."] and
    the root always exist. *)
Definition node_at (f : gmap string Node) (p : string) : option Node :=
  if String.eqb p "." || (negb (Path.is_empty p) && Path.all_sep p)
  then Some Dir else f !! p.

Definition path_exists (f : gmap string Node) (p : string) : bool :=
  match node_at f p with Some _ => true | None => false end.

Definition exists_ (p : string) : M bool :=
  emit (EvExists p);;
  f ← gets files;
  mret (path_exists f p).

(** The directory a new entry [p] is made in. *)
Definition parent (p : string) : string :=
  let '(h, t) := Path.split p in
  if Path.is_empty t then fst (Path.split h) else h.

(** [os.mkdir(p)]: [p] must be new and its parent an existing directory
    (the current one when [p] has no directory part). *)
Definition mkdir (p : string) : M unit :=
  emit (EvMkdir p);;
  f ← gets files;
  ok ← gets writable;
  if Path.is_empty p then raise (Py.OSError Py.FileNotFoundError p)
  else if path_exists f p then raise (Py.OSError Py.FileExistsError p)
  else
    match (if Path.is_empty (parent p) then Some Dir else node_at f (parent p)) with
    | None => raise (Py.OSError Py.FileNotFoundError p)
    | Some File => raise (Py.OSError Py.NotADirectoryError p)
    | Some Dir =>
        if (ok : bool) then modify (with_files (<[p := Dir]> f))
        else raise (Py.OSError Py.PermissionError p)
    end.

(** [os.makedirs(name)] with [exist_ok=False], as in [os.py]: the missing
    ancestors are made first, by the recursive call on the head of
    [os.path.split(name)], then [name] itself with [mkdir]. The head is
    shorter than [name], so [length name] levels of recursion are enough
    (lemma [makedirs_fuel]). *)
Fixpoint makedirs_at (fuel : nat) (name : string) : M unit :=
  emit (EvMakedirs name);;
  let '(head, tail) := Path.split name in
  let '(head, tail) :=
    if Path.is_empty tail then Path.split head else (head, tail) in
  done ←
    (if negb (Path.is_empty head) && negb (Path.is_empty tail) then
       present ← exists_ head;
       if negb (present : bool) then
         match fuel with
         | O => mret false
         | S fuel' =>
             except_file_exists (makedirs_at fuel' head);;
             mret (String.eqb tail ".")
         end
       else mret false
     else mret false);
  if (done : bool) then mret tt else mkdir name.

Definition makedirs (name : string) : M unit :=
  makedirs_at (String.length name) name.

(** *** [utils.util] and [models] *)

(** Modelled from the spec: [setup_logger] of [utils/util.py], which is
    not part of the sources at hand. It "initializes the textual run log
    sink (file + console)": the log file becomes a sink of the process. *)
Definition setup_logger (log_file_path : string) : M unit :=
  emit (EvSetupLogger log_file_path);;
  modify (fun w => with_log_sinks (log_sinks w ++ [log_file_path]) w).

(** Modelled from the spec: [print_args] of [utils/util.py], which is not
    part of the sources at hand. It "emits a dump of the fully resolved
    configuration". *)
Definition print_args (o : Opts) : M unit := emit (EvPrintArgs o).

(** Modelled from the spec: the class [Trainer] of [models], which is not
    part of the sources at hand. It is handed the resolved options and has
    "a single entry point that runs to completion or raises a fatal
    error". *)
Definition Trainer (o : Opts) : M unit := emit (EvTrainer o).

Definition Trainer_train : M unit :=
  emit EvTrain;;
  fails ← gets driver_fails;
  if (fails : bool) then raise (Py.RuntimeError "training failed") else mret tt.

(** ** [train.py] *)

Definition int_ (s : string) : M Z :=
  match Py.int s with
  | Some n => mret n
  | None => raise (Py.invalid_literal s)
  end.

Definition is_spawn (m : option StartMethod) : bool :=
  match m with Some Spawn => true | _ => false end.

(** Lines 20-21: child processes are to be started by spawning. *)
Definition ensure_spawn : M unit :=
  m ← get_start_method;
  if negb (is_spawn m) then set_start_method Spawn else mret tt.

(** [init_dist(backend='nccl')], lines 18-25. *)
Definition init_dist (backend : string) : M unit :=
  ensure_spawn;;
  r ← environ_get "RANK";
  rank ← int_ r;
  num_gpus ← cuda_device_count;
  d ← match Py.mod_ rank num_gpus with
      | Some d => mret d
      | None => raise Py.ZeroDivisionError
      end;
  cuda_set_device d;;
  init_process_group backend.

(** [set_random_seed(seed)], lines 27-31. *)
Definition set_random_seed (seed : Z) : M unit :=
  random_seed seed;;
  np_random_seed seed;;
  torch_manual_seed seed;;
  cuda_manual_seed_all seed.

(** [parser.parse_args()], line 107: the namespace is the input here. *)
Definition parse_args (argv : Args) : M Args :=
  emit EvParseArgs;;
  mret argv.

(** The loop of lines 113-116 over the tokens still to read, [ids] being
    [args.gpu_ids] so far. The first token [int] refuses ends it. *)
Fixpoint collect_ids (str_ids : list string) (ids : list Z) : Py.Exn + list Z :=
  match str_ids with
  | [] => inr ids
  | str_id :: rest =>
      match Py.int str_id with
      | None => inl (Py.invalid_literal str_id)
      | Some id =>
          collect_ids rest (if Z.geb id 0 then ids ++ [id] else ids)
      end
  end.

(** Lines 111-116. *)
Definition parse_gpu_ids (s : string) : Py.Exn + list Z :=
  collect_ids (Py.split "," s) [].

Definition lift {A} (r : Py.Exn + A) : M A :=
  match r with inl e => raise e | inr a => mret a end.

(** Lines 111-118: the device ids and the default device. *)
Definition device_setup (args : Args) : M (list Z) :=
  ids ← lift (parse_gpu_ids (arg_gpu_ids args));
  match ids with
  | d :: _ => cuda_set_device d
  | [] => mret tt
  end;;
  mret ids.

(** Lines 121-130: [(args.dist, args.rank, args.world_size)]. *)
Definition distributed_setup (l : Launcher) : M (bool * Z * option Z) :=
  match l with
  | LauncherNone =>
      print "Disabled distributed training.";;
      mret (false, -1, None)
  | LauncherPytorch =>
      init_dist "nccl";;
      n ← get_world_size;
      print (Py.str_of_int n);;
      r ← get_rank;
      mret (true, r, Some n)
  end.

(** Lines 132-135: the run's directories and the name of its log file. *)
Definition resolve_paths (args : Args) (ids : list Z) (d : bool) (r : Z)
    (n : option Z) : M (Opts * string) :=
  let folder := Path.join (arg_save_folder args) (arg_name args) in
  stamp ← strftime;
  mret ({| parsed := args; gpu_ids := ids; dist := d; rank := r;
           world_size := n; save_folder := folder;
           vis_save_dir := Path.join folder "vis";
           snapshot_save_dir := Path.join folder "snapshot" |},
        folder +:+ "/" +:+ stamp +:+ ".log").

(** Lines 137-142: the directories and the log sink of the run. *)
Definition setup_layout (o : Opts) (log_file_path : string) : M unit :=
  if Z.leb (rank o) 0 then
    vis ← exists_ (vis_save_dir o);
    (if negb (vis : bool) then makedirs (vis_save_dir o) else mret tt);;
    snapshot ← exists_ (snapshot_save_dir o);
    (if negb (snapshot : bool) then mkdir (snapshot_save_dir o) else mret tt);;
    setup_logger log_file_path
  else mret tt.

Definition set_cudnn_benchmark : M unit :=
  emit EvCudnnBenchmark;;
  modify (with_cudnn_benchmark true).

(** Lines 107-135 of [main]: the namespace [args] as the rest of [main]
    uses it, and [log_file_path]. *)
Definition resolve_options (argv : Args) : M (Opts * string) :=
  args ← parse_args argv;
  set_random_seed (arg_random_seed args);;
  ids ← device_setup args;
  '(d, r, n) ← distributed_setup (arg_launcher args);
  resolve_paths args ids d r n.

(** [main()], lines 106-150, on the namespace of the command line. *)
Definition main (argv : Args) : M unit :=
  '(o, log_file_path) ← resolve_options argv;
  setup_layout o log_file_path;;
  print_args o;;
  set_cudnn_benchmark;;
  Trainer o;;
  Trainer_train.

(** The events [m] adds to the trace of [w]. *)
Definition events {A} (m : M A) (w : World) : list Event :=
  drop (length (trace w)) (trace (final (m w))).

(** ** Steps and components *)

(** The steps of [main], in the order of its text. *)
Inductive Step :=
  | StepArguments
  | StepSeeding
  | StepDevices
  | StepPaths
  | StepLayout
  | StepDump
  | StepBackend
  | StepDriver.

Definition step_index (s : Step) : nat :=
  match s with
  | StepArguments => 0
  | StepSeeding => 1
  | StepDevices => 2
  | StepPaths => 3
  | StepLayout => 4
  | StepDump => 5
  | StepBackend => 6
  | StepDriver => 7
  end%nat.

(** The step of [main] each call belongs to. *)
Definition step_of (e : Event) : Step :=
  match e with
  | EvParseArgs => StepArguments
  | EvSeedRandom _ | EvSeedNumpy _ | EvSeedTorch _ | EvSeedCuda _ => StepSeeding
  | EvSetDevice _ | EvPrint _ | EvGetStartMethod | EvSetStartMethod _
  | EvEnviron _ | EvDeviceCount | EvInitProcessGroup _ | EvGetWorldSize
  | EvGetRank => StepDevices
  | EvStrftime => StepPaths
  | EvExists _ | EvMakedirs _ | EvMkdir _ | EvSetupLogger _ => StepLayout
  | EvPrintArgs _ => StepDump
  | EvCudnnBenchmark => StepBackend
  | EvTrainer _ | EvTrain => StepDriver
  end.

(** The components the specification names. *)
Inductive Component :=
  | SeedingUnit
  | ConfigurationResolver
  | DeviceCoordinator
  | LayoutManager
  | TrainingDriver.

(** The place of a component in the order the specification gives:
    seeding, configuration resolution, device/distribution setup, layout
    creation, driver invocation. *)
Definition component_index (c : Component) : nat :=
  match c with
  | SeedingUnit => 0
  | ConfigurationResolver => 1
  | DeviceCoordinator => 2
  | LayoutManager => 3
  | TrainingDriver => 4
  end%nat.

(** The component a step is the work of: parsing the options and deriving
    the paths are configuration resolution, the dump of the options is
    part of the layout manager; the cuDNN switch belongs to none. *)
Definition component_of (s : Step) : option Component :=
  match s with
  | StepArguments => Some ConfigurationResolver
  | StepSeeding => Some SeedingUnit
  | StepDevices => Some DeviceCoordinator
  | StepPaths => Some ConfigurationResolver
  | StepLayout => Some LayoutManager
  | StepDump => Some LayoutManager
  | StepBackend => None
  | StepDriver => Some TrainingDriver
  end.

Fixpoint nondecreasing (l : list nat) : bool :=
  match l with
  | a :: (b :: _) as l' => Nat.leb a b && nondecreasing l'
  | _ => true
  end.

(** A trace follows the text of [main]: its steps never go back. *)
Definition in_program_order (evs : list Event) : bool :=
  nondecreasing (map (fun e => step_index (step_of e)) evs).

(** A trace follows the specification's order: the components at work
    never go back. *)
Definition in_specified_order (evs : list Event) : bool :=
  nondecreasing
    (map component_index (omap (fun e => component_of (step_of e)) evs)).

(** ** Sample inputs *)

(** The defaults of the command line. *)
Definition default_args : Args :=
  {| arg_random_seed := 0; arg_name := "train_vfiformer"; arg_phase := "train";
     arg_gpu_ids := "0"; arg_launcher := LauncherNone; arg_local_rank := 0;
     arg_save_folder := "./weights"; arg_others := [] |}.

Definition with_gpu_ids (s : string) (a : Args) : Args :=
  {| arg_random_seed := arg_random_seed a; arg_name := arg_name a;
     arg_phase := arg_phase a; arg_gpu_ids := s; arg_launcher := arg_launcher a;
     arg_local_rank := arg_local_rank a; arg_save_folder := arg_save_folder a;
     arg_others := arg_others a |}.

Definition with_launcher (l : Launcher) (a : Args) : Args :=
  {| arg_random_seed := arg_random_seed a; arg_name := arg_name a;
     arg_phase := arg_phase a; arg_gpu_ids := arg_gpu_ids a; arg_launcher := l;
     arg_local_rank := arg_local_rank a; arg_save_folder := arg_save_folder a;
     arg_others := arg_others a |}.

(** A fresh process on a node with four devices and an empty working
    directory; the launcher has set no variable. *)
Definition fresh_world : World :=
  {| environ := ∅; start_method := None; device_count := 4;
     current_device := None; rendezvous := Some (8, 5); process_group := None;
     files := ∅; writable := true; clock := "20220301_120000";
     log_sinks := [];
     seeds := {| seed_random := None; seed_numpy := None;
                 seed_torch := None; seed_cuda := None |};
     cudnn_benchmark := false; driver_fails := false; trace := [] |}.

Definition with_environ (e : gmap string string) (w : World) : World :=
  {| environ := e; start_method := start_method w;
     device_count := device_count w; current_device := current_device w;
     rendezvous := rendezvous w; process_group := process_group w;
     files := files w; writable := writable w; clock := clock w;
     log_sinks := log_sinks w; seeds := seeds w;
     cudnn_benchmark := cudnn_benchmark w; driver_fails := driver_fails w;
     trace := trace w |}.

(** The same process as the launcher starts it for rank 5 of 8. *)
Definition launched_world : World :=
  with_environ (<["RANK" := "5"]> ∅) fresh_world.

(** The options of rank [r] of a run called "demo". *)
Definition demo_opts (r : Z) : Opts :=
  {| parsed := default_args; gpu_ids := [0]; dist := Z.leb 0 r; rank := r;
     world_size := if Z.leb 0 r then Some 8 else None;
     save_folder := "./weights/demo"; vis_save_dir := "./weights/demo/vis";
     snapshot_save_dir := "./weights/demo/snapshot" |}.

Definition gpu_ids_of_result (r : Result (list Z)) : option (list Z) :=
  match r with Ok ids _ => Some ids | Raise _ _ => None end.

(** The options [main] resolves from the defaults. *)
Definition default_opts : Opts :=
  {| parsed := default_args; gpu_ids := [0]; dist := false; rank := -1;
     world_size := None; save_folder := "./weights/train_vfiformer";
     vis_save_dir := "./weights/train_vfiformer/vis";
     snapshot_save_dir := "./weights/train_vfiformer/snapshot" |}.

(** A world where the directories of the run "demo" are there already. *)
Definition demo_world : World :=
  with_files (<["./weights/demo/snapshot" := Dir]>
                (<["./weights/demo/vis" := Dir]>
                   (<["./weights/demo" := Dir]> (<["./weights" := Dir]> ∅))))
    fresh_world.

(** ** Reading traces *)

Definition is_set_start_method (e : Event) : bool :=
  match e with EvSetStartMethod _ => true | _ => false end.

Definition is_creation (e : Event) : bool :=
  match e with EvMakedirs _ | EvMkdir _ => true | _ => false end.


Definition is_driver (e : Event) : bool :=
  match e with EvTrainer _ | EvTrain => true | _ => false end.

(** The events of a block of the program: in program order, of steps
    [lo] to [hi], with at most [n] calls of [set_start_method]. *)
Definition block (lo hi n : nat) (evs : list Event) : Prop :=
  in_program_order evs = true
  /\ Forall (fun e => (lo <= step_index (step_of e) <= hi)%nat) evs
  /\ (length (List.filter is_set_start_method evs) <= n)%nat.

(** [m] only adds events to the trace, and those satisfy [P]. *)
Definition emits {A} (m : M A) (P : list Event -> Prop) : Prop :=
  forall w, exists evs, trace (final (m w)) = trace w ++ evs /\ P evs.

(** [m] adds events of step [s] only and never calls [set_start_method]. *)
Definition quiet {A} (s : Step) (m : M A) : Prop :=
  emits m (block (step_index s) (step_index s) 0).

(** [m] leaves the part [f] of the world as it is. *)
Definition keeps {A B} (f : World -> B) (m : M A) : Prop :=
  forall w, f (final (m w)) = f w.

(** At [w], [m] ends with an exception, having added events of the steps
    [lo] to [hi] only. *)
Definition stops_within {A} (lo hi n : nat) (m : M A) (w : World) : Prop :=
  (exists e, raised (m w) = Some e)
  /\ exists evs, trace (final (m w)) = trace w ++ evs /\ block lo hi n evs.

(** What [m] returns and what it raises. *)
Definition post {A} (m : M A) (Q : A -> Prop) (E : Py.Exn -> Prop) : Prop :=
  forall w, match m w with Ok a _ => Q a | Raise e _ => E e end.

Definition is_os_error (e : Py.Exn) : Prop :=
  match e with Py.OSError _ _ => True | _ => False end.

Definition any {A} (_ : A) : Prop := True.

(** A file name: not empty and without a separator. *)
Fixpoint is_name_tail (s : string) : bool :=
  match s with
  | EmptyString => true
  | String c s' => negb (Ascii.eqb c Path.sep) && is_name_tail s'
  end.

Definition is_name (s : string) : bool :=
  negb (Path.is_empty s) && is_name_tail s.

(** ** Further readings of options and worlds *)


Definition with_name (s : string) (a : Args) : Args :=
  {| arg_random_seed := arg_random_seed a; arg_name := s;
     arg_phase := arg_phase a; arg_gpu_ids := arg_gpu_ids a;
     arg_launcher := arg_launcher a; arg_local_rank := arg_local_rank a;
     arg_save_folder := arg_save_folder a; arg_others := arg_others a |}.

Definition with_random_seed (s : Z) (a : Args) : Args :=
  {| arg_random_seed := s; arg_name := arg_name a;
     arg_phase := arg_phase a; arg_gpu_ids := arg_gpu_ids a;
     arg_launcher := arg_launcher a; arg_local_rank := arg_local_rank a;
     arg_save_folder := arg_save_folder a; arg_others := arg_others a |}.


(** What the set-up of devices, distribution and layout writes. *)
Definition settings (w : World)
  : option StartMethod * option Z * option (Z * Z) * gmap string Node * list string :=
  (start_method w, current_device w, process_group w, files w, log_sinks w).

(** What the script only reads. *)
Definition givens (w : World)
  : gmap string string * Z * option (Z * Z) * bool * string * bool :=
  (environ w, device_count w, rendezvous w, writable w, clock w, driver_fails w).


Definition all_seeded (seed : Z) : Seeds :=
  {| seed_random := Some seed; seed_numpy := Some seed;
     seed_torch := Some seed; seed_cuda := Some seed |}.

(** The process-wide choices of the distribution set-up. *)
Definition bindings (w : World) : option StartMethod * option (Z * Z) :=
  (start_method w, process_group w).


(** The directories and log sinks of the process. *)
Definition disk (w : World) : gmap string Node * list string :=
  (files w, log_sinks w).

(** * Properties *)

(** ** The monad *)

Lemma bind_ok {A B} (m : M A) (k : A -> M B) w a w' :
  m w = Ok a w' -> (m ≫= k) w = k a w'.
Proof. intros H. unfold mbind, M_bind, bind. now rewrite H. Qed.

Lemma bind_raise {A B} (m : M A) (k : A -> M B) w e w' :
  m w = Raise e w' -> (m ≫= k) w = Raise e w'.
Proof. intros H. unfold mbind, M_bind, bind. now rewrite H. Qed.

Lemma events_eq {A} (m : M A) w evs :
  trace (final (m w)) = trace w ++ evs -> events m w = evs.
Proof.
  intros H. unfold events. rewrite H. apply drop_app_length.
Qed.

Lemma emits_events {A} (m : M A) P w : emits m P -> P (events m w).
Proof.
  intros H. destruct (H w) as [evs [E HP]]. now rewrite (events_eq _ _ _ E).
Qed.

Lemma emits_weaken {A} (m : M A) (P Q : list Event -> Prop) :
  emits m P -> (forall evs, P evs -> Q evs) -> emits m Q.
Proof.
  intros H HPQ w. destruct (H w) as [evs [E HP]]. exists evs. auto.
Qed.

Lemma emits_pure {A} (m : M A) (P : list Event -> Prop) :
  (forall w, final (m w) = w) -> P [] -> emits m P.
Proof.
  intros H HP w. exists []. rewrite H, app_nil_r. auto.
Qed.

Lemma emits_emit e (P : list Event -> Prop) : P [e] -> emits (emit e) P.
Proof. intros HP w. exists [e]. auto. Qed.

Lemma emits_modify f (P : list Event -> Prop) :
  (forall w, trace (f w) = trace w) -> P [] -> emits (modify f) P.
Proof.
  intros H HP w. exists []. simpl. rewrite H, app_nil_r. auto.
Qed.

Lemma emits_bind {A B} (m : M A) (k : A -> M B) (P Q R : list Event -> Prop) :
  emits m P -> (forall a, emits (k a) Q) ->
  (forall evs, P evs -> R evs) ->
  (forall evs1 evs2, P evs1 -> Q evs2 -> R (evs1 ++ evs2)) ->
  emits (m ≫= k) R.
Proof.
  intros Hm Hk HR1 HR2 w. destruct (Hm w) as [evs1 [E1 HP]].
  destruct (m w) as [a w1 | e w1] eqn:Em.
  - rewrite (bind_ok _ _ _ _ _ Em). destruct (Hk a w1) as [evs2 [E2 HQ]].
    exists (evs1 ++ evs2). simpl in E1. rewrite E2, E1, app_assoc. auto.
  - rewrite (bind_raise _ _ _ _ _ Em). exists evs1. auto.
Qed.

Lemma emits_except (m : M unit) P : emits m P -> emits (except_file_exists m) P.
Proof.
  intros H w. destruct (H w) as [evs [E HP]]. exists evs. split; [|exact HP].
  unfold except_file_exists.
  destruct (m w) as [a w1 | [ | | | | [] p] w1]; exact E.
Qed.

(** ** Blocks of events *)

Lemma nondecreasing_app (l1 l2 : list nat) :
  nondecreasing l1 = true -> nondecreasing l2 = true ->
  (forall a b, In a l1 -> In b l2 -> (a <= b)%nat) ->
  nondecreasing (l1 ++ l2) = true.
Proof.
  induction l1 as [|a l1 IH]; intros H1 H2 H; [exact H2|].
  destruct l1 as [|b l1].
  - simpl. destruct l2 as [|c l2]; [reflexivity|].
    simpl in H2 |- *. rewrite H2, andb_true_r.
    apply Nat.leb_le, H; simpl; auto.
  - simpl in H1. apply andb_prop in H1 as [Hab H1].
    change (nondecreasing (a :: (b :: l1) ++ l2) = true).
    simpl. simpl in IH. rewrite Hab. simpl. apply IH; auto.
    intros x y Hx Hy. apply H; simpl in *; tauto.
Qed.

Lemma block_nil lo hi n : block lo hi n [].
Proof. repeat split; simpl; [constructor | lia]. Qed.

Lemma block_one lo hi n e :
  (lo <= step_index (step_of e) <= hi)%nat ->
  (if is_set_start_method e then 1 <= n else True)%nat ->
  block lo hi n [e].
Proof.
  intros H Hn. repeat split; simpl; try lia.
  - constructor; [lia | constructor].
  - revert Hn. destruct (is_set_start_method e); simpl; lia.
Qed.

Lemma block_app a b c d n1 n2 n evs1 evs2 :
  block a b n1 evs1 -> block c d n2 evs2 ->
  (a <= c)%nat -> (b <= c)%nat -> (b <= d)%nat -> (n1 + n2 <= n)%nat ->
  block a d n (evs1 ++ evs2).
Proof.
  intros (S1 & F1 & C1) (S2 & F2 & C2) Hac Hbc Hbd Hn.
  repeat split.
  - unfold in_program_order in *. rewrite map_app.
    apply nondecreasing_app; auto.
    intros x y Hx Hy. apply in_map_iff in Hx as [e1 [<- Hx]].
    apply in_map_iff in Hy as [e2 [<- Hy]].
    rewrite List.Forall_forall in F1, F2.
    specialize (F1 _ Hx). specialize (F2 _ Hy). lia.
  - apply Forall_app. split; eapply Forall_impl; eauto; simpl; intros; lia.
  - rewrite List.filter_app, length_app. lia.
Qed.

Lemma block_weaken a b n a' b' n' evs :
  block a b n evs -> (a' <= a)%nat -> (b <= b')%nat -> (n <= n')%nat ->
  block a' b' n' evs.
Proof.
  intros (S1 & F1 & C1) Ha Hb Hn. repeat split; auto; [|lia].
  eapply Forall_impl; eauto. simpl. intros. lia.
Qed.

Lemma block_bind {A B} (m : M A) (k : A -> M B) a b c d n1 n2 n :
  emits m (block a b n1) -> (forall x, emits (k x) (block c d n2)) ->
  (a <= c)%nat -> (b <= c)%nat -> (b <= d)%nat -> (n1 + n2 <= n)%nat ->
  emits (m ≫= k) (block a d n).
Proof.
  intros Hm Hk Hac Hbc Hbd Hn.
  apply (emits_bind m k (block a b n1) (block c d n2)); auto.
  - intros evs H. eapply block_weaken; eauto; lia.
  - intros evs1 evs2 H1 H2. eapply block_app; eauto.
Qed.

Lemma quiet_bind {A B} s (m : M A) (k : A -> M B) :
  quiet s m -> (forall x, quiet s (k x)) -> quiet s (m ≫= k).
Proof. intros Hm Hk. eapply block_bind; eauto. Qed.

Lemma quiet_ret {A} s (x : A) : quiet s (mret x).
Proof. apply emits_pure; [reflexivity | apply block_nil]. Qed.

Lemma quiet_raise {A} s e : quiet s (@raise A e).
Proof. apply emits_pure; [reflexivity | apply block_nil]. Qed.

Lemma quiet_gets {A} s (f : World -> A) : quiet s (gets f).
Proof. apply emits_pure; [reflexivity | apply block_nil]. Qed.

Lemma quiet_modify s f :
  (forall w, trace (f w) = trace w) -> quiet s (modify f).
Proof. intros H. apply emits_modify; [exact H | apply block_nil]. Qed.

Lemma quiet_emit s e :
  step_of e = s -> is_set_start_method e = false -> quiet s (emit e).
Proof.
  intros <- H. apply emits_emit, block_one; [lia | now rewrite H].
Qed.

Lemma quiet_except s m : quiet s m -> quiet s (except_file_exists m).
Proof. apply emits_except. Qed.

(** Solves [quiet] for a computation built from the primitives. *)
Ltac quiet :=
  repeat first
    [ apply quiet_ret | apply quiet_raise | apply quiet_gets
    | apply quiet_emit; reflexivity
    | apply quiet_modify; reflexivity
    | apply quiet_except
    | apply quiet_bind; [|intros ?]
    | match goal with
      | |- quiet _ (match ?x with _ => _ end) => destruct x
      | |- quiet _ (if ?x then _ else _) => destruct x
      | |- quiet _ (let '(_, _) := ?x in _) => destruct x
      end ].

(** ** Python built-ins and paths on examples *)

Example split_two : Py.split "," "0,2" = ["0"; "2"].
Proof. reflexivity. Qed.
Example split_empty : Py.split "," "" = [""].
Proof. reflexivity. Qed.
Example split_trailing : Py.split "," "0,,2," = ["0"; ""; "2"; ""].
Proof. reflexivity. Qed.
Example int_plain : Py.int "12" = Some 12.
Proof. reflexivity. Qed.
Example int_signed : Py.int " -1 " = Some (-1).
Proof. reflexivity. Qed.
Example int_underscore : Py.int "1_0" = Some 10 /\ Py.int "1__0" = None
  /\ Py.int "_1" = None /\ Py.int "1_" = None.
Proof. repeat split; reflexivity. Qed.
Example int_empty : Py.int "" = None /\ Py.int "-" = None /\ Py.int "0x1" = None.
Proof. repeat split; reflexivity. Qed.
Example str_of_int_ex : Py.str_of_int 120 = "120" /\ Py.str_of_int (-7) = "-7"
  /\ Py.str_of_int 0 = "0" /\ Py.str_of_int 1024 = "1024".
Proof. repeat split; reflexivity. Qed.
Example join_plain : Path.join "./weights" "demo" = "./weights/demo".
Proof. reflexivity. Qed.
Example join_slash : Path.join "./weights/" "demo" = "./weights/demo".
Proof. reflexivity. Qed.
Example join_absolute : Path.join "./weights" "/tmp/run" = "/tmp/run".
Proof. reflexivity. Qed.
Example join_empty : Path.join "" "vis" = "vis".
Proof. reflexivity. Qed.
Example split_plain : Path.split "./weights/demo/vis" = ("./weights/demo", "vis").
Proof. reflexivity. Qed.
Example split_root : Path.split "/vis" = ("/", "vis").
Proof. reflexivity. Qed.
Example split_relative : Path.split "vis" = ("", "vis").
Proof. reflexivity. Qed.
Example split_double : Path.split "a//b" = ("a", "b").
Proof. reflexivity. Qed.
Example split_trailing_sep : Path.split "a/b/" = ("a/b", "").
Proof. reflexivity. Qed.

(** ** The events of each part of [train.py] *)

Lemma quiet_parse_args argv : quiet StepArguments (parse_args argv).
Proof. unfold parse_args. quiet. Qed.

Lemma quiet_set_random_seed seed : quiet StepSeeding (set_random_seed seed).
Proof.
  unfold set_random_seed, random_seed, np_random_seed, torch_manual_seed,
    cuda_manual_seed_all. quiet.
Qed.

Lemma quiet_cuda_set_device d : quiet StepDevices (cuda_set_device d).
Proof. unfold cuda_set_device. quiet. Qed.

Lemma quiet_device_setup args : quiet StepDevices (device_setup args).
Proof.
  unfold device_setup, lift. pose proof quiet_cuda_set_device. quiet; auto.
Qed.

Lemma ensure_spawn_block : emits ensure_spawn (block 2 2 1).
Proof.
  unfold ensure_spawn.
  apply (block_bind _ _ 2 2 2 2 0 1); try lia.
  - unfold get_start_method. change 2%nat with (step_index StepDevices). quiet.
  - intros m. destruct (negb (is_spawn m)).
    + unfold set_start_method.
      apply (block_bind _ _ 2 2 2 2 1 0); try lia.
      * apply emits_emit, block_one; simpl; lia.
      * intros _. change 2%nat with (step_index StepDevices). quiet.
    + apply emits_pure; [reflexivity | apply block_nil].
Qed.

Lemma init_dist_block backend : emits (init_dist backend) (block 2 2 1).
Proof.
  unfold init_dist.
  apply (block_bind _ _ 2 2 2 2 1 0); try lia; [apply ensure_spawn_block|].
  intros _. change 2%nat with (step_index StepDevices).
  unfold environ_get, int_, cuda_device_count, init_process_group.
  pose proof quiet_cuda_set_device. quiet; auto.
Qed.

Lemma distributed_setup_block l : emits (distributed_setup l) (block 2 2 1).
Proof.
  destruct l; unfold distributed_setup.
  - eapply emits_weaken with (P := block 2 2 0).
    + change 2%nat with (step_index StepDevices). unfold print. quiet.
    + intros evs H. eapply block_weaken; eauto.
  - apply (block_bind _ _ 2 2 2 2 1 0); try lia; [apply init_dist_block|].
    intros _. change 2%nat with (step_index StepDevices).
    unfold get_world_size, get_rank, print. quiet.
Qed.

Lemma quiet_resolve_paths args ids d r n :
  quiet StepPaths (resolve_paths args ids d r n).
Proof. unfold resolve_paths, strftime. quiet. Qed.

Lemma quiet_exists p : quiet StepLayout (exists_ p).
Proof. unfold exists_. quiet. Qed.

Lemma quiet_mkdir p : quiet StepLayout (mkdir p).
Proof. unfold mkdir. quiet. Qed.

Lemma quiet_makedirs_at fuel : forall name, quiet StepLayout (makedirs_at fuel name).
Proof.
  pose proof quiet_exists. pose proof quiet_mkdir.
  induction fuel as [|fuel IH]; intros name; simpl; quiet; auto.
Qed.

Lemma quiet_setup_layout o log : quiet StepLayout (setup_layout o log).
Proof.
  unfold setup_layout, makedirs, setup_logger.
  pose proof quiet_exists. pose proof quiet_mkdir. pose proof quiet_makedirs_at.
  quiet; auto.
Qed.

Lemma quiet_print_args o : quiet StepDump (print_args o).
Proof. unfold print_args. quiet. Qed.

Lemma quiet_set_cudnn_benchmark : quiet StepBackend set_cudnn_benchmark.
Proof. unfold set_cudnn_benchmark. quiet. Qed.

Lemma quiet_driver o : quiet StepDriver (Trainer o;; Trainer_train).
Proof. unfold Trainer, Trainer_train. quiet. Qed.

Lemma resolve_options_block argv : emits (resolve_options argv) (block 0 3 1).
Proof.
  unfold resolve_options.
  apply (block_bind _ _ 0 0 1 3 0 1); try lia; [apply quiet_parse_args|].
  intros args.
  apply (block_bind _ _ 1 1 2 3 0 1); try lia; [apply quiet_set_random_seed|].
  intros _.
  apply (block_bind _ _ 2 2 2 3 0 1); try lia; [apply quiet_device_setup|].
  intros ids.
  apply (block_bind _ _ 2 2 3 3 1 0); try lia; [apply distributed_setup_block|].
  intros [[d r] n]. apply quiet_resolve_paths.
Qed.

Lemma main_block argv : emits (main argv) (block 0 7 1).
Proof.
  unfold main.
  apply (block_bind _ _ 0 3 4 7 1 0); try lia; [apply resolve_options_block|].
  intros [o log].
  apply (block_bind _ _ 4 4 5 7 0 0); try lia; [apply quiet_setup_layout|].
  intros _.
  apply (block_bind _ _ 5 5 6 7 0 0); try lia; [apply quiet_print_args|].
  intros _.
  apply (block_bind _ _ 6 6 7 7 0 0); try lia; [apply quiet_set_cudnn_benchmark|].
  intros _. apply quiet_driver.
Qed.

(** ** C1: the order of the steps *)

(** C1, as amended. In every run of [main], whatever the command line
    and the world, and whether or not the run is cut short by an
    exception, the calls happen in the order of the steps of the program
    text: parsing of the command line, seeding, device and distribution
    set-up, derivation of the paths, creation of the layout, dump of the
    options, cuDNN switch, driver; no call of an earlier step follows one
    of a later step. *)
Theorem main_in_program_order (argv : Args) (w : World) :
  in_program_order (events (main argv) w) = true.
Proof.
  destruct (emits_events (main argv) _ w (main_block argv)) as [H _]. exact H.
Qed.

(** C1, counterexample. With the default command line the first call is
    the parsing of the options, which belongs to configuration
    resolution, and seeding comes second, with the seed the options give.
    The derivation of the paths, configuration resolution as well, comes
    after the device and distribution set-up. So the components are not
    at work in the order seeding, configuration resolution, device
    set-up, layout, driver; and they are not even when the parsing of the
    command line is left aside. *)
Lemma main_not_in_specified_order :
  take 2 (events (main default_args) fresh_world) = [EvParseArgs; EvSeedRandom 0]
  /\ in_specified_order (events (main default_args) fresh_world) = false
  /\ take 3 (drop 5 (events (main default_args) fresh_world))
     = [EvSetDevice 0; EvPrint "Disabled distributed training."; EvStrftime]
  /\ in_specified_order (drop 1 (events (main default_args) fresh_world)) = false.
Proof. repeat split; vm_compute; reflexivity. Qed.

(** ** C2: the device of a rank *)

(** Unfolds the monad down to the world. *)
Ltac run :=
  unfold mbind, M_bind, bind, mret, M_ret, ret, emit, modify, gets, raise, lift;
  simpl.

Lemma ensure_spawn_result w :
  ensure_spawn w =
  match start_method w with
  | None =>
      Ok tt (with_start_method (Some Spawn)
               (with_trace (trace w ++ [EvGetStartMethod; EvSetStartMethod Spawn]) w))
  | Some Spawn => Ok tt (with_trace (trace w ++ [EvGetStartMethod]) w)
  | Some _ =>
      Raise (Py.RuntimeError "context has already been set")
        (with_trace (trace w ++ [EvGetStartMethod; EvSetStartMethod Spawn]) w)
  end.
Proof.
  destruct w as [env sm n cur rdv pg f wr clk sinks sds cb df tr].
  unfold ensure_spawn, get_start_method, set_start_method. run.
  destruct sm as [[]|]; simpl; unfold with_trace, with_start_method; simpl;
    rewrite <- ?app_assoc; reflexivity.
Qed.


Lemma keeps_bind {A B C} (f : World -> C) (m : M A) (k : A -> M B) :
  keeps f m -> (forall a, keeps f (k a)) -> keeps f (m ≫= k).
Proof.
  intros Hm Hk w. specialize (Hm w).
  destruct (m w) as [a w1 | e w1] eqn:Em.
  - rewrite (bind_ok _ _ _ _ _ Em). rewrite Hk. exact Hm.
  - rewrite (bind_raise _ _ _ _ _ Em). exact Hm.
Qed.

Lemma keeps_pure {A B} (f : World -> B) (m : M A) :
  (forall w, final (m w) = w) -> keeps f m.
Proof. intros H w. now rewrite H. Qed.

Lemma keeps_modify {B} (f : World -> B) g :
  (forall w, f (g w) = f w) -> keeps f (modify g).
Proof. intros H w. apply H. Qed.

Lemma keeps_except {B} (f : World -> B) m :
  keeps f m -> keeps f (except_file_exists m).
Proof.
  intros H w. specialize (H w). unfold except_file_exists.
  destruct (m w) as [a w1 | [ | | | | [] p] w1]; exact H.
Qed.

(** Solves [keeps f] for a computation built from the primitives, when
    no primitive writes the part [f]. *)
Ltac keeps :=
  repeat first
    [ apply keeps_pure; reflexivity
    | apply keeps_modify; reflexivity
    | apply keeps_except
    | apply keeps_bind; [|intros ?]
    | match goal with
      | |- keeps _ (match ?x with _ => _ end) => destruct x
      | |- keeps _ (if ?x then _ else _) => destruct x
      | |- keeps _ (let '(_, _) := ?x in _) => destruct x
      end ].






(** ** C3: the ranks that do not coordinate *)

(** C3. On a rank strictly greater than 0 the layout step of [main]
    (lines 137-142) does nothing at all: it returns with the world as it
    found it, so no directory is made, no log sink is set up and no call
    is traced, whatever the file system holds. *)
Theorem setup_layout_other_ranks (o : Opts) (log_file_path : string) (w : World) :
  0 < rank o ->
  setup_layout o log_file_path w = Ok tt w
  /\ files (final (setup_layout o log_file_path w)) = files w
  /\ log_sinks (final (setup_layout o log_file_path w)) = log_sinks w
  /\ events (setup_layout o log_file_path) w = [].
Proof.
  intros H. unfold events, setup_layout.
  assert (E : Z.leb (rank o) 0 = false) by (apply Z.leb_gt; lia).
  rewrite E. simpl. rewrite drop_all. auto.
Qed.

(** Rank 5 in a world where neither directory exists. *)
Lemma setup_layout_other_ranks_witness :
  (path_exists (files fresh_world) (vis_save_dir (demo_opts 5)) = false
   /\ path_exists (files fresh_world) (snapshot_save_dir (demo_opts 5)) = false)
  /\ setup_layout (demo_opts 5) "./weights/demo/20220301_120000.log" fresh_world
     = Ok tt fresh_world
  /\ files (final (setup_layout (demo_opts 5)
                     "./weights/demo/20220301_120000.log" fresh_world))
     = files fresh_world
  /\ log_sinks (final (setup_layout (demo_opts 5)
                         "./weights/demo/20220301_120000.log" fresh_world))
     = log_sinks fresh_world
  /\ events (setup_layout (demo_opts 5) "./weights/demo/20220301_120000.log")
       fresh_world = [].
Proof.
  split; [split; reflexivity|].
  apply (setup_layout_other_ranks (demo_opts 5)
           "./weights/demo/20220301_120000.log" fresh_world).
  simpl. lia.
Defined.

(** ** C5, C6, C10: the device ids *)


Lemma device_setup_none argv w :
  parse_gpu_ids (arg_gpu_ids argv) = inr [] -> device_setup argv w = Ok [] w.
Proof. intros H. unfold device_setup. rewrite H. reflexivity. Qed.

Lemma device_setup_refused argv w e :
  parse_gpu_ids (arg_gpu_ids argv) = inl e -> device_setup argv w = Raise e w.
Proof. intros H. unfold device_setup. rewrite H. reflexivity. Qed.

Lemma device_setup_first argv w d ids :
  parse_gpu_ids (arg_gpu_ids argv) = inr (d :: ids) -> 0 <= d ->
  events (device_setup argv) w = [EvSetDevice d]
  /\ (d < device_count w ->
      device_setup argv w
      = Ok (d :: ids)
          (with_current_device (Some d)
             (with_trace (trace w ++ [EvSetDevice d]) w))).
Proof.
  intros H Hd.
  assert (Hneg : Z.ltb d 0 = false) by (apply Z.ltb_ge; lia).
  destruct w as [env sm n cur rdv pg f wr clk sinks sds cb df tr].
  unfold events, device_setup, cuda_set_device. rewrite H. run. rewrite Hneg.
  destruct (Z.ltb d n) eqn:Hlt; simpl.
  - rewrite drop_app_length. split; [reflexivity|]. reflexivity.
  - rewrite drop_app_length. split; [reflexivity|].
    intros Hc. apply Z.ltb_ge in Hlt. lia.
Qed.

(** C5, as amended. For the device-id string "-1" the list of device
    ids is empty and the device step binds no device: it leaves the world
    as it is (CPU-only mode). The empty string is not an alias of it:
    its one token is the empty text, which [int] refuses, and the step
    ends with that [ValueError] before any device is bound. *)
Theorem gpu_ids_minus_one_is_cpu_only :
  parse_gpu_ids "-1" = inr []
  /\ (forall argv w, arg_gpu_ids argv = "-1" ->
        device_setup argv w = Ok [] w
        /\ events (device_setup argv) w = [])
  /\ (forall argv w, arg_gpu_ids argv = "" ->
        device_setup argv w = Raise (Py.invalid_literal "") w
        /\ events (device_setup argv) w = []).
Proof.
  split; [reflexivity|]. split; intros argv w H; unfold events.
  - rewrite (device_setup_none argv w) by (now rewrite H).
    simpl. now rewrite drop_all.
  - rewrite (device_setup_refused argv w (Py.invalid_literal ""))
      by (now rewrite H).
    simpl. now rewrite drop_all.
Qed.

Lemma gpu_ids_minus_one_is_cpu_only_witness :
  device_setup (with_gpu_ids "-1" default_args) fresh_world = Ok [] fresh_world
  /\ device_setup (with_gpu_ids "" default_args) fresh_world
     = Raise (Py.invalid_literal "") fresh_world.
Proof.
  split.
  - apply (proj1 (proj2 gpu_ids_minus_one_is_cpu_only)
             (with_gpu_ids "-1" default_args) fresh_world).
    reflexivity.
  - apply (proj2 (proj2 gpu_ids_minus_one_is_cpu_only)
             (with_gpu_ids "" default_args) fresh_world).
    reflexivity.
Defined.

(** C5, counterexample. The empty device-id string does not give the
    empty list: parsing it raises, and so does [main]. *)
Lemma gpu_ids_empty_string_refused :
  parse_gpu_ids "" = inl (Py.invalid_literal "")
  /\ parse_gpu_ids "" <> inr []
  /\ raised (main (with_gpu_ids "" default_args) fresh_world)
     = Some (Py.ValueError "invalid literal for int() with base 10: ''").
Proof. split; [reflexivity|]. split; [discriminate|]. vm_compute. reflexivity. Qed.

(** C6. For the device-id string "0,2" the list of device ids is
    [[0; 2]], in that order, and the device step makes one call,
    [torch.cuda.set_device(0)], for the first id of the list; on a node
    that shows a device it ends with device 0 as the current device of the
    process. *)
Theorem gpu_ids_0_2_binds_first :
  parse_gpu_ids "0,2" = inr [0; 2]
  /\ forall argv w, arg_gpu_ids argv = "0,2" ->
       events (device_setup argv) w = [EvSetDevice 0]
       /\ (0 < device_count w ->
           device_setup argv w
           = Ok [0; 2] (with_current_device (Some 0)
                          (with_trace (trace w ++ [EvSetDevice 0]) w))).
Proof.
  split; [reflexivity|]. intros argv w H.
  apply device_setup_first; [now rewrite H | lia].
Qed.

Lemma gpu_ids_0_2_binds_first_witness :
  events (device_setup (with_gpu_ids "0,2" default_args)) fresh_world
  = [EvSetDevice 0]
  /\ gpu_ids_of_result (device_setup (with_gpu_ids "0,2" default_args) fresh_world)
     = Some [0; 2]
  /\ current_device
       (final (device_setup (with_gpu_ids "0,2" default_args) fresh_world))
     = Some 0.
Proof.
  destruct (proj2 gpu_ids_0_2_binds_first
              (with_gpu_ids "0,2" default_args) fresh_world eq_refl)
    as [Hev Hok].
  split; [exact Hev|]. rewrite Hok by (simpl; lia). split; reflexivity.
Defined.



(** ** C9: the start method *)

Lemma ensure_spawn_again w w' :
  ensure_spawn w = Ok tt w' ->
  ensure_spawn w' = Ok tt (with_trace (trace w' ++ [EvGetStartMethod]) w').
Proof.
  rewrite !ensure_spawn_result.
  destruct (start_method w) as [[]|] eqn:E; intros H; inversion H; subst; simpl.
  - now rewrite E.
  - reflexivity.
Qed.

Lemma init_dist_incompatible backend w :
  start_method w = Some Fork \/ start_method w = Some Forkserver ->
  init_dist backend w
  = Raise (Py.RuntimeError "context has already been set")
      (with_trace (trace w ++ [EvGetStartMethod; EvSetStartMethod Spawn]) w).
Proof.
  intros H. unfold init_dist. apply bind_raise. rewrite ensure_spawn_result.
  destruct H as [-> | ->]; reflexivity.
Qed.

(** C9. The guard of [init_dist] (lines 20-21) fixes the start method
    to spawn when none is fixed yet, with one call of
    [set_start_method]; does nothing but ask when spawn is fixed already,
    so that a second pass through it is without effect; and raises the
    [RuntimeError] of [set_start_method], which ends [init_dist], when
    fork or forkserver is fixed. In a run of [main], whatever the command
    line and the world, [set_start_method] is called at most once. *)
Theorem spawn_start_method_set_once :
  (forall w,
     ensure_spawn w =
     match start_method w with
     | None =>
         Ok tt (with_start_method (Some Spawn)
                  (with_trace
                     (trace w ++ [EvGetStartMethod; EvSetStartMethod Spawn]) w))
     | Some Spawn => Ok tt (with_trace (trace w ++ [EvGetStartMethod]) w)
     | Some _ =>
         Raise (Py.RuntimeError "context has already been set")
           (with_trace
              (trace w ++ [EvGetStartMethod; EvSetStartMethod Spawn]) w)
     end)
  /\ (forall w w', ensure_spawn w = Ok tt w' ->
        start_method w' = Some Spawn
        /\ ensure_spawn w'
           = Ok tt (with_trace (trace w' ++ [EvGetStartMethod]) w'))
  /\ (forall backend w,
        start_method w = Some Fork \/ start_method w = Some Forkserver ->
        raised (init_dist backend w)
        = Some (Py.RuntimeError "context has already been set"))
  /\ (forall argv w,
        (length (List.filter is_set_start_method (events (main argv) w)) <= 1)%nat).
Proof.
  split; [exact ensure_spawn_result|]. split; [|split].
  - intros w w' H. split; [|exact (ensure_spawn_again w w' H)].
    rewrite ensure_spawn_result in H.
    destruct (start_method w) as [[]|] eqn:E; inversion H; subst; auto.
  - intros backend w H. now rewrite init_dist_incompatible.
  - intros argv w.
    destruct (emits_events (main argv) _ w (main_block argv)) as (_ & _ & H).
    exact H.
Qed.

(** A fresh process, then the same guard again, and a process whose start
    method is fork. *)
Lemma spawn_start_method_set_once_witness :
  start_method (final (ensure_spawn fresh_world)) = Some Spawn
  /\ ensure_spawn (final (ensure_spawn fresh_world))
     = Ok tt (with_trace [EvGetStartMethod; EvSetStartMethod Spawn; EvGetStartMethod]
                (final (ensure_spawn fresh_world)))
  /\ raised (init_dist "nccl" (with_start_method (Some Fork) launched_world))
     = Some (Py.RuntimeError "context has already been set").
Proof.
  destruct spawn_start_method_set_once as (_ & Hagain & Hbad & _).
  destruct (Hagain fresh_world (final (ensure_spawn fresh_world)) eq_refl)
    as [H1 H2].
  split; [exact H1|]. split; [exact H2|].
  apply (Hbad "nccl" (with_start_method (Some Fork) launched_world)).
  left. reflexivity.
Defined.

(** ** C7: a missing rank *)

Lemma stops_bind_l {A B} (m : M A) (k : A -> M B) a b n w :
  stops_within a b n m w -> stops_within a b n (m ≫= k) w.
Proof.
  unfold stops_within. intros [[e He] Hev]. destruct (m w) as [x w1 | e1 w1] eqn:Em; [discriminate|].
  rewrite (bind_raise _ _ _ _ _ Em). split; [now exists e1 | exact Hev].
Qed.

Lemma stops_bind_r {A B} (m : M A) (k : A -> M B) a b c d n1 n2 n w :
  emits m (block a b n1) ->
  (forall x w1, m w = Ok x w1 -> stops_within c d n2 (k x) w1) ->
  (a <= c)%nat -> (b <= c)%nat -> (b <= d)%nat -> (n1 + n2 <= n)%nat ->
  stops_within a d n (m ≫= k) w.
Proof.
  unfold stops_within.
  intros Hm Hk Hac Hbc Hbd Hn. destruct (Hm w) as [evs1 [E1 B1]].
  destruct (m w) as [x w1 | e w1] eqn:Em.
  - rewrite (bind_ok _ _ _ _ _ Em).
    destruct (Hk x w1 eq_refl) as [He [evs2 [E2 B2]]]. split; [exact He|].
    exists (evs1 ++ evs2). simpl in E1. rewrite E2, E1, app_assoc.
    split; [reflexivity|]. eapply block_app; eauto.
  - rewrite (bind_raise _ _ _ _ _ Em). split; [now exists e|].
    exists evs1. split; [exact E1|]. eapply block_weaken; eauto; lia.
Qed.

Lemma keeps_ok {A B} (f : World -> B) (m : M A) w x w1 :
  keeps f m -> m w = Ok x w1 -> f w1 = f w.
Proof. intros H E. specialize (H w). now rewrite E in H. Qed.

Lemma parse_args_environ argv : keeps environ (parse_args argv).
Proof. unfold parse_args, emit. keeps. Qed.

Lemma set_random_seed_environ seed : keeps environ (set_random_seed seed).
Proof.
  unfold set_random_seed, random_seed, np_random_seed, torch_manual_seed,
    cuda_manual_seed_all, emit. keeps.
Qed.

Lemma device_setup_environ args : keeps environ (device_setup args).
Proof. unfold device_setup, cuda_set_device, lift, emit. keeps. Qed.

Lemma init_dist_without_rank backend w :
  environ w !! "RANK" = None ->
  raised (init_dist backend w)
  = Some (match start_method w with
          | Some Fork | Some Forkserver =>
              Py.RuntimeError "context has already been set"
          | _ => Py.KeyError "RANK"
          end).
Proof.
  intros Henv. unfold init_dist.
  destruct w as [env sm n cur rdv pg f wr clk sinks sds cb df tr].
  simpl in *.
  unfold mbind at 1. unfold M_bind, bind at 1. rewrite ensure_spawn_result.
  destruct sm as [[]|]; simpl; try reflexivity;
    unfold environ_get; run; rewrite Henv; reflexivity.
Qed.

Lemma init_dist_stops backend w :
  environ w !! "RANK" = None -> stops_within 2 2 1 (init_dist backend) w.
Proof.
  intros Henv. split.
  - rewrite (init_dist_without_rank _ _ Henv). eauto.
  - apply init_dist_block.
Qed.

Lemma main_stops_without_rank argv w :
  arg_launcher argv = LauncherPytorch -> environ w !! "RANK" = None ->
  stops_within 0 2 1 (main argv) w.
Proof.
  intros Hl Henv. unfold main. apply stops_bind_l. unfold resolve_options.
  apply (stops_bind_r _ _ 0 0 1 2 0 1); try lia; [apply quiet_parse_args|].
  intros args w1 E1.
  assert (Ha : args = argv) by (unfold parse_args in E1; now inversion E1).
  subst args.
  apply (stops_bind_r _ _ 1 1 2 2 0 1); try lia; [apply quiet_set_random_seed|].
  intros [] w2 E2.
  apply (stops_bind_r _ _ 2 2 2 2 0 1); try lia; [apply quiet_device_setup|].
  intros ids w3 E3.
  apply stops_bind_l. rewrite Hl. unfold distributed_setup.
  apply stops_bind_l, init_dist_stops.
  rewrite (keeps_ok _ _ _ _ _ (device_setup_environ argv) E3).
  rewrite (keeps_ok _ _ _ _ _ (set_random_seed_environ _) E2).
  rewrite (keeps_ok _ _ _ _ _ (parse_args_environ argv) E1).
  exact Henv.
Qed.

(** C7. In multi-process mode with no [RANK] in the environment,
    [init_dist] ends with an exception: the [KeyError] of
    [os.environ['RANK']], or the [RuntimeError] of the start-method guard
    when that one fails first. [main] then ends with an exception as
    well, and all its calls are of the steps up to the device and
    distribution set-up: no path is derived, no directory made and the
    trainer is never started, in single-process mode or otherwise. *)
Theorem missing_rank_is_fatal :
  (forall backend w, environ w !! "RANK" = None ->
     raised (init_dist backend w)
     = Some (match start_method w with
             | Some Fork | Some Forkserver =>
                 Py.RuntimeError "context has already been set"
             | _ => Py.KeyError "RANK"
             end))
  /\ (forall argv w,
        arg_launcher argv = LauncherPytorch -> environ w !! "RANK" = None ->
        (exists e, raised (main argv w) = Some e)
        /\ Forall (fun ev => (step_index (step_of ev) <= step_index StepDevices)%nat)
             (events (main argv) w)
        /\ List.filter is_driver (events (main argv) w) = []).
Proof.
  split; [exact init_dist_without_rank|].
  intros argv w Hl Henv.
  destruct (main_stops_without_rank argv w Hl Henv) as [He [evs [E (_ & F & _)]]].
  rewrite (events_eq _ _ _ E).
  assert (F' : Forall (fun ev => (step_index (step_of ev) <= 2)%nat) evs).
  { eapply Forall_impl; eauto. simpl. intros. lia. }
  split; [exact He|]. split; [exact F'|].
  clear E F. induction F' as [|ev evs Hev _ IH]; [reflexivity|].
  simpl. rewrite IH. destruct ev; simpl in *; try reflexivity; lia.
Qed.

(** The default options with the "pytorch" launcher, in a process the
    launcher gave no rank. *)
Lemma missing_rank_is_fatal_witness :
  raised (init_dist "nccl" fresh_world) = Some (Py.KeyError "RANK")
  /\ (exists e, raised (main (with_launcher LauncherPytorch default_args)
                          fresh_world) = Some e)
  /\ List.filter is_driver
       (events (main (with_launcher LauncherPytorch default_args)) fresh_world)
     = [].
Proof.
  destruct missing_rank_is_fatal as [Hi Hm].
  split; [exact (Hi "nccl" fresh_world eq_refl)|].
  destruct (Hm (with_launcher LauncherPytorch default_args) fresh_world
              eq_refl eq_refl) as (He & _ & Hd).
  split; [exact He | exact Hd].
Defined.

(** ** Paths *)

Lemma cut_name_tail b : is_name_tail b = true -> Path.cut b = (EmptyString, b).
Proof.
  induction b as [|c b IH]; simpl; [reflexivity|].
  intros H. apply andb_prop in H as [Hc Hb]. rewrite (IH Hb). simpl.
  apply negb_true_iff in Hc. now rewrite Hc.
Qed.

Lemma cut_sep_name a b :
  is_name_tail b = true ->
  snd (Path.cut (a +:+ String Path.sep b)) = b
  /\ Path.is_empty (fst (Path.cut (a +:+ String Path.sep b))) = false.
Proof.
  intros Hb. induction a as [|c a [IH Hh]]; simpl.
  - rewrite (cut_name_tail b Hb). simpl. auto.
  - destruct (Path.cut (a +:+ String Path.sep b)) as [h t]. simpl in *.
    rewrite Hh. simpl. auto.
Qed.

Lemma cut_app_name a b :
  is_name_tail b = true ->
  Path.cut (a +:+ b) = (fst (Path.cut a), snd (Path.cut a) +:+ b).
Proof.
  intros Hb. induction a as [|c a IH].
  - change (EmptyString +:+ b) with b. now rewrite (cut_name_tail b Hb).
  - change (String c a +:+ b) with (String c (a +:+ b)). simpl.
    rewrite IH. destruct (Path.cut a) as [h t]. simpl.
    destruct (Path.is_empty h); simpl; [|reflexivity].
    destruct (Ascii.eqb c Path.sep); reflexivity.
Qed.

Lemma cut_concat s : fst (Path.cut s) +:+ snd (Path.cut s) = s.
Proof.
  induction s as [|c s IH]; [reflexivity|]. simpl.
  destruct (Path.cut s) as [h t]. simpl in IH.
  destruct h as [|c' h]; simpl.
  - change (EmptyString +:+ t) with t in IH. subst t.
    destruct (Ascii.eqb c Path.sep) eqn:E; [|reflexivity].
    apply Ascii.eqb_eq in E. now subst c.
  - change (String c (String c' h +:+ t) = String c s). now rewrite IH.
Qed.

Lemma cut_endswith_sep a :
  Path.endswith_sep a = true -> snd (Path.cut a) = EmptyString.
Proof.
  induction a as [|c a IH]; [discriminate|].
  destruct a as [|c' a].
  - simpl. intros H. now rewrite H.
  - intros H. change (Path.endswith_sep (String c' a) = true) in H.
    specialize (IH H). pose proof (cut_concat (String c' a)) as Hc.
    change (Path.cut (String c (String c' a)))
      with (let '(h, t) := Path.cut (String c' a) in
            if negb (Path.is_empty h) then (String c h, t)
            else if Ascii.eqb c Path.sep then (String c EmptyString, t)
            else (EmptyString, String c t)).
    destruct (Path.cut (String c' a)) as [h t]. simpl in IH, Hc. subst t.
    destruct h as [|c'' h]; [discriminate|]. reflexivity.
Qed.

Lemma split_snd p : snd (Path.split p) = snd (Path.cut p).
Proof.
  unfold Path.split. destruct (Path.cut p) as [h t].
  destruct (negb (Path.is_empty h) && negb (Path.all_sep h)); reflexivity.
Qed.

Lemma is_name_not_sep b : is_name b = true -> Path.startswith_sep b = false.
Proof.
  destruct b as [|c b]; [reflexivity|]. unfold is_name. simpl.
  intros H. apply andb_prop in H as [H _]. now apply negb_true_iff in H.
Qed.

(** The last component of [os.path.join(a, b)] is [b] when [b] is a name. *)
Lemma split_join_name a b :
  is_name b = true -> snd (Path.split (Path.join a b)) = b.
Proof.
  intros Hb. rewrite split_snd. unfold Path.join.
  rewrite (is_name_not_sep b Hb).
  assert (Ht : is_name_tail b = true)
    by (unfold is_name in Hb; now apply andb_prop in Hb as [_ Hb]).
  destruct (Path.is_empty a || Path.endswith_sep a) eqn:E.
  - rewrite (cut_app_name a b Ht). simpl.
    apply orb_prop in E as [E | E].
    + destruct a; [reflexivity | discriminate].
    + now rewrite (cut_endswith_sep a E).
  - apply (cut_sep_name a b Ht).
Qed.

(** ** What a computation returns and raises *)

Lemma bind_inv_ok {A B} (m : M A) (k : A -> M B) w b w' :
  (m ≫= k) w = Ok b w' -> exists a w1, m w = Ok a w1 /\ k a w1 = Ok b w'.
Proof.
  unfold mbind, M_bind, bind. destruct (m w) as [a w1 | e w1]; [|discriminate].
  eauto.
Qed.

Lemma bind_inv_raise {A B} (m : M A) (k : A -> M B) w e w' :
  (m ≫= k) w = Raise e w' ->
  m w = Raise e w' \/ exists a w1, m w = Ok a w1 /\ k a w1 = Raise e w'.
Proof.
  unfold mbind, M_bind, bind. destruct (m w) as [a w1 | e1 w1]; intros H.
  - right. exists a, w1. auto.
  - left. inversion H. reflexivity.
Qed.

Lemma post_bind {A B} (m : M A) (k : A -> M B) Q E :
  post m any E -> (forall a, post (k a) Q E) -> post (m ≫= k) Q E.
Proof.
  intros Hm Hk w. specialize (Hm w). unfold mbind, M_bind, bind.
  destruct (m w) as [a w1 | e w1]; [apply Hk | exact Hm].
Qed.

Lemma post_ret {A} (a : A) (Q : A -> Prop) E : Q a -> post (mret a) Q E.
Proof. intros H w. exact H. Qed.

Lemma post_raise {A} e (Q : A -> Prop) (E : Py.Exn -> Prop) :
  E e -> post (raise e) Q E.
Proof. intros H w. exact H. Qed.

Lemma post_gets {A} (f : World -> A) E : post (gets f) any E.
Proof. intros w. exact I. Qed.

Lemma post_modify f (Q : unit -> Prop) E : Q tt -> post (modify f) Q E.
Proof. intros H w. exact H. Qed.

Lemma post_except m E : post m any E -> post (except_file_exists m) any E.
Proof.
  intros H w. specialize (H w). unfold except_file_exists.
  destruct (m w) as [a w1 | [ | | | | [] p] w1]; try exact H; exact I.
Qed.

Lemma post_trivial {A} (m : M A) : post m any any.
Proof. intros w. destruct (m w); exact I. Qed.

(** Solves [post] for a computation built from the primitives. *)
Ltac post :=
  repeat first
    [ apply post_trivial
    | apply post_gets
    | apply post_ret; first [exact I | reflexivity]
    | apply post_raise; exact I
    | apply post_modify; exact I
    | apply post_except
    | apply post_bind; [|intros ?]
    | match goal with
      | |- post (match ?x with _ => _ end) _ _ => destruct x
      | |- post (if ?x then _ else _) _ _ => destruct x
      | |- post (let '(_, _) := ?x in _) _ _ => destruct x
      end ].

(** ** The file system *)

Lemma exists_result p w :
  exists_ p w
  = Ok (path_exists (files w) p) (with_trace (trace w ++ [EvExists p]) w).
Proof. destruct w. reflexivity. Qed.

Lemma setup_logger_result log w :
  setup_logger log w
  = Ok tt (with_log_sinks (log_sinks w ++ [log])
             (with_trace (trace w ++ [EvSetupLogger log]) w)).
Proof. destruct w. reflexivity. Qed.

Lemma path_exists_insert_eq (f : gmap string Node) p :
  path_exists (<[p := Dir]> f) p = true.
Proof.
  unfold path_exists, node_at.
  destruct (String.eqb p "." || negb (Path.is_empty p) && Path.all_sep p);
    [reflexivity|].
  now rewrite lookup_insert_eq.
Qed.

Lemma path_exists_insert (f : gmap string Node) p q :
  path_exists f q = true -> path_exists (<[p := Dir]> f) q = true.
Proof.
  unfold path_exists, node_at.
  destruct (String.eqb q "." || negb (Path.is_empty q) && Path.all_sep q);
    [reflexivity|].
  destruct (decide (p = q)) as [-> | Hne].
  - now rewrite lookup_insert_eq.
  - now rewrite lookup_insert_ne.
Qed.

Lemma mkdir_ok p w w' :
  mkdir p w = Ok tt w' ->
  files w' = <[p := Dir]> (files w) /\ log_sinks w' = log_sinks w.
Proof.
  destruct w as [env sm n cur rdv pg f wr clk sinks sds cb df tr].
  unfold mkdir. run.
  destruct (Path.is_empty p); [discriminate|].
  destruct (path_exists f p); [discriminate|].
  destruct (if Path.is_empty (parent p) then Some Dir else node_at f (parent p))
    as [[]|]; try discriminate.
  destruct wr; [|discriminate].
  intros H. inversion H. auto.
Qed.

Lemma mkdir_post p : post (mkdir p) any is_os_error.
Proof. unfold mkdir, emit. post. Qed.

Lemma exists_post p : post (exists_ p) any is_os_error.
Proof. unfold exists_, emit. post. Qed.

Lemma makedirs_at_post fuel : forall name, post (makedirs_at fuel name) any is_os_error.
Proof.
  pose proof mkdir_post. pose proof exists_post.
  induction fuel as [|fuel IH]; intros name; simpl; unfold emit; post; auto.
Qed.

Lemma mkdir_log_sinks p : keeps log_sinks (mkdir p).
Proof. unfold mkdir, emit. keeps. Qed.

Lemma exists_log_sinks p : keeps log_sinks (exists_ p).
Proof. unfold exists_, emit. keeps. Qed.

Lemma makedirs_at_log_sinks fuel : forall name, keeps log_sinks (makedirs_at fuel name).
Proof.
  pose proof mkdir_log_sinks. pose proof exists_log_sinks.
  induction fuel as [|fuel IH]; intros name; simpl; unfold emit; keeps; auto.
Qed.

Lemma makedirs_at_unfold fuel name :
  makedirs_at fuel name =
  (emit (EvMakedirs name);;
   let '(head, tail) := Path.split name in
   let '(head, tail) :=
     if Path.is_empty tail then Path.split head else (head, tail) in
   done ←
     (if negb (Path.is_empty head) && negb (Path.is_empty tail) then
        present ← exists_ head;
        if negb (present : bool) then
          match fuel with
          | O => mret false
          | S fuel' =>
              except_file_exists (makedirs_at fuel' head);;
              mret (String.eqb tail ".")
          end
        else mret false
      else mret false);
   if (done : bool) then mret tt else mkdir name).
Proof. destruct fuel; reflexivity. Qed.

(** When [makedirs] returns, the directory is there, for a [name] whose
    last component is a name other than ["."]. *)
Lemma makedirs_at_ok fuel name w w' :
  Path.is_empty (snd (Path.split name)) = false ->
  String.eqb (snd (Path.split name)) "." = false ->
  makedirs_at fuel name w = Ok tt w' ->
  path_exists (files w') name = true.
Proof.
  intros Ht Hdot H. rewrite makedirs_at_unfold in H.
  destruct (Path.split name) as [h t]. simpl in Ht, Hdot. rewrite Ht in H.
  apply bind_inv_ok in H as ([] & w1 & _ & H).
  apply bind_inv_ok in H as (done & w2 & Hd & H).
  assert (Hf : done = false).
  { match type of Hd with
    | ?D w1 = _ => assert (HD : post D (fun b => b = false) any)
    end.
    { rewrite Hdot. destruct fuel; post. }
    specialize (HD w1). now rewrite Hd in HD. }
  subst done. apply mkdir_ok in H as [H _]. rewrite H.
  apply path_exists_insert_eq.
Qed.

(** ** C4, C8: the layout on the coordinating process *)

(** The layout step when both directories are there. *)
Lemma setup_layout_present o log w :
  rank o <= 0 ->
  path_exists (files w) (vis_save_dir o) = true ->
  path_exists (files w) (snapshot_save_dir o) = true ->
  setup_layout o log w
  = Ok tt (with_log_sinks (log_sinks w ++ [log])
             (with_trace (trace w ++ [EvExists (vis_save_dir o);
                                      EvExists (snapshot_save_dir o);
                                      EvSetupLogger log]) w)).
Proof.
  intros Hr Hv Hs. unfold setup_layout.
  assert (E : Z.leb (rank o) 0 = true) by (apply Z.leb_le; lia). rewrite E.
  rewrite (bind_ok _ _ _ _ _ (exists_result _ _)), Hv. simpl negb. cbv iota.
  rewrite (bind_ok _ _ _ tt _ eq_refl).
  rewrite (bind_ok _ _ _ _ _ (exists_result _ _)).
  destruct w as [env sm n cur rdv pg f wr clk sinks sds cb df tr].
  simpl in *. rewrite Hs. simpl.
  unfold setup_logger. run. unfold with_log_sinks, with_trace. simpl.
  rewrite <- !app_assoc. reflexivity.
Qed.

(** The layout step on the coordinating process: it either ends with
    both directories there and the log file among the sinks, or with the
    error of a directory creation. *)
Lemma setup_layout_coordinator o log w :
  rank o <= 0 ->
  Path.is_empty (snd (Path.split (vis_save_dir o))) = false ->
  String.eqb (snd (Path.split (vis_save_dir o))) "." = false ->
  match setup_layout o log w with
  | Ok _ w' =>
      path_exists (files w') (vis_save_dir o) = true
      /\ path_exists (files w') (snapshot_save_dir o) = true
      /\ log_sinks w' = log_sinks w ++ [log]
  | Raise e _ => is_os_error e
  end.
Proof.
  intros Hr Ht Hdot. unfold setup_layout.
  assert (E : Z.leb (rank o) 0 = true) by (apply Z.leb_le; lia). rewrite E.
  rewrite (bind_ok _ _ _ _ _ (exists_result _ _)).
  set (w1 := with_trace (trace w ++ [EvExists (vis_save_dir o)]) w).
  assert (Hl1 : log_sinks w1 = log_sinks w) by (destruct w; reflexivity).
  assert (Hf1 : files w1 = files w) by (destruct w; reflexivity).
  clearbody w1.
  (* the visualization directory *)
  assert (Hvis : match (if negb (path_exists (files w) (vis_save_dir o))
                        then makedirs (vis_save_dir o) else mret tt) w1 with
                 | Ok _ w2 =>
                     path_exists (files w2) (vis_save_dir o) = true
                     /\ log_sinks w2 = log_sinks w
                 | Raise e _ => is_os_error e
                 end).
  { destruct (path_exists (files w) (vis_save_dir o)) eqn:Hv; simpl.
    - now rewrite Hf1, Hl1.
    - pose proof (makedirs_at_post (String.length (vis_save_dir o))
                    (vis_save_dir o) w1) as Hp.
      pose proof (makedirs_at_log_sinks (String.length (vis_save_dir o))
                    (vis_save_dir o) w1) as Hk.
      unfold makedirs.
      destruct (makedirs_at _ _ w1) as [[] w2 | e w2] eqn:Em; [|exact Hp].
      split; [exact (makedirs_at_ok _ _ _ _ Ht Hdot Em)|].
      simpl in Hk. now rewrite Hk. }
  destruct ((if negb (path_exists (files w) (vis_save_dir o))
             then makedirs (vis_save_dir o) else mret tt) w1)
    as [[] w2 | e w2] eqn:E2.
  2:{ rewrite (bind_raise _ _ _ _ _ E2). exact Hvis. }
  rewrite (bind_ok _ _ _ _ _ E2). destruct Hvis as [Hv2 Hl2].
  rewrite (bind_ok _ _ _ _ _ (exists_result _ _)).
  set (w3 := with_trace (trace w2 ++ [EvExists (snapshot_save_dir o)]) w2).
  assert (Hl3 : log_sinks w3 = log_sinks w2) by (destruct w2; reflexivity).
  assert (Hf3 : files w3 = files w2) by (destruct w2; reflexivity).
  clearbody w3.
  (* the snapshot directory *)
  destruct (path_exists (files w2) (snapshot_save_dir o)) eqn:Hs; simpl negb;
    cbv iota.
  - rewrite (bind_ok _ _ _ tt _ eq_refl), setup_logger_result. simpl.
    destruct w3; simpl in *. subst. rewrite Hv2, Hs, Hl2. auto.
  - pose proof (mkdir_post (snapshot_save_dir o) w3) as Hp.
    destruct (mkdir (snapshot_save_dir o) w3) as [[] w4 | e w4] eqn:Em.
    2:{ rewrite (bind_raise _ _ _ _ _ Em). exact Hp. }
    rewrite (bind_ok _ _ _ _ _ Em), setup_logger_result.
    apply mkdir_ok in Em as [Hf4 Hl4].
    destruct w4; simpl in *. subst.
    rewrite path_exists_insert_eq, path_exists_insert by (now rewrite Hf3).
    rewrite Hl3, Hl2. auto.
Qed.

(** C8. On the coordinating process (rank at most 0), in a world where
    the visualization and the snapshot directory are there, the layout
    step returns without an error and leaves the file system as it is,
    and so does a second pass right after it: the calls of that pass are
    the two existence checks and the set-up of the logger, none of them
    [os.makedirs] or [os.mkdir]. *)
Theorem setup_layout_twice_creates_nothing
    (o : Opts) (log1 log2 : string) (w : World) :
  rank o <= 0 ->
  path_exists (files w) (vis_save_dir o) = true ->
  path_exists (files w) (snapshot_save_dir o) = true ->
  exists w1 w2,
    setup_layout o log1 w = Ok tt w1
    /\ setup_layout o log2 w1 = Ok tt w2
    /\ files w1 = files w
    /\ files w2 = files w1
    /\ events (setup_layout o log2) w1
       = [EvExists (vis_save_dir o); EvExists (snapshot_save_dir o);
          EvSetupLogger log2]
    /\ List.filter is_creation (events (setup_layout o log1) w) = []
    /\ List.filter is_creation (events (setup_layout o log2) w1) = [].
Proof.
  intros Hr Hv Hs.
  pose proof (setup_layout_present o log1 w Hr Hv Hs) as E1.
  set (w1 := with_log_sinks (log_sinks w ++ [log1])
               (with_trace (trace w ++ [EvExists (vis_save_dir o);
                                        EvExists (snapshot_save_dir o);
                                        EvSetupLogger log1]) w)) in *.
  assert (Hf1 : files w1 = files w) by (destruct w; reflexivity).
  assert (Hv1 : path_exists (files w1) (vis_save_dir o) = true)
    by (now rewrite Hf1).
  assert (Hs1 : path_exists (files w1) (snapshot_save_dir o) = true)
    by (now rewrite Hf1).
  pose proof (setup_layout_present o log2 w1 Hr Hv1 Hs1) as E2.
  eexists w1, _. split; [exact E1|]. split; [exact E2|].
  split; [exact Hf1|]. split; [destruct w1; reflexivity|].
  unfold events. rewrite E1, E2.
  split; [|split].
  - destruct w1; simpl. now rewrite drop_app_length.
  - destruct w; simpl. now rewrite drop_app_length.
  - destruct w1; simpl. now rewrite drop_app_length.
Qed.

(** Rank 0 of the run "demo", its directories being there. *)
Lemma setup_layout_twice_creates_nothing_witness :
  exists w1 w2,
    setup_layout (demo_opts 0) "./weights/demo/20220301_120000.log" demo_world
    = Ok tt w1
    /\ setup_layout (demo_opts 0) "./weights/demo/20220301_120500.log" w1
       = Ok tt w2
    /\ files w1 = files demo_world
    /\ files w2 = files w1.
Proof.
  destruct (setup_layout_twice_creates_nothing (demo_opts 0)
              "./weights/demo/20220301_120000.log"
              "./weights/demo/20220301_120500.log" demo_world)
    as (w1 & w2 & H1 & H2 & H3 & H4 & _).
  - simpl. lia.
  - reflexivity.
  - reflexivity.
  - exists w1, w2. auto.
Defined.




(** ** The recursion of [os.makedirs] *)

Lemma rstrip_sep_length s :
  (String.length (Path.rstrip_sep s) <= String.length s)%nat.
Proof.
  induction s as [|c s IH]; [reflexivity|].
  change (Path.rstrip_sep (String c s))
    with (if Path.all_sep (String c s) then EmptyString
          else String c (Path.rstrip_sep s)).
  destruct (Path.all_sep (String c s)); simpl; lia.
Qed.

Lemma append_length a b :
  String.length (a +:+ b) = (String.length a + String.length b)%nat.
Proof.
  induction a as [|c a IH]; [reflexivity|].
  change (String c a +:+ b) with (String c (a +:+ b)). simpl. now rewrite IH.
Qed.

Lemma cut_length p :
  (String.length (fst (Path.cut p)) + String.length (snd (Path.cut p))
   = String.length p)%nat.
Proof.
  rewrite <- (cut_concat p) at 3. now rewrite append_length.
Qed.

Lemma split_length p :
  (String.length (fst (Path.split p)) + String.length (snd (Path.split p))
   <= String.length p)%nat.
Proof.
  pose proof (cut_length p) as H. unfold Path.split.
  destruct (Path.cut p) as [h t]. simpl in H.
  destruct (negb (Path.is_empty h) && negb (Path.all_sep h)); simpl; [|lia].
  pose proof (rstrip_sep_length h). lia.
Qed.

(** The head [makedirs] recurses on is shorter than the name. *)
Lemma makedirs_head_shorter name h t :
  (if Path.is_empty (snd (Path.split name))
   then Path.split (fst (Path.split name))
   else Path.split name) = (h, t) ->
  Path.is_empty t = false ->
  (String.length h < String.length name)%nat.
Proof.
  intros H Ht. pose proof (split_length name) as H1.
  assert (Hlen : (0 < String.length t)%nat)
    by (destruct t; [discriminate | simpl; lia]).
  destruct (Path.is_empty (snd (Path.split name))).
  - pose proof (split_length (fst (Path.split name))) as H2.
    rewrite H in H2. simpl in H2. lia.
  - rewrite H in H1. simpl in H1. lia.
Qed.

Lemma bind_ext {A B} (m : M A) (k1 k2 : A -> M B) w :
  (forall a w', k1 a w' = k2 a w') -> (m ≫= k1) w = (m ≫= k2) w.
Proof.
  intros H. unfold mbind, M_bind, bind. destruct (m w); [apply H | reflexivity].
Qed.

Lemma bind_ext_l {A B} (m1 m2 : M A) (k : A -> M B) w :
  (forall w', m1 w' = m2 w') -> (m1 ≫= k) w = (m2 ≫= k) w.
Proof. intros H. unfold mbind, M_bind, bind. now rewrite H. Qed.

Lemma except_ext (m1 m2 : M unit) w :
  (forall w', m1 w' = m2 w') ->
  except_file_exists m1 w = except_file_exists m2 w.
Proof. intros H. unfold except_file_exists. now rewrite H. Qed.

Lemma makedirs_at_fuel n : forall m name w,
  (String.length name <= n)%nat -> (String.length name <= m)%nat ->
  makedirs_at n name w = makedirs_at m name w.
Proof.
  induction n as [|n IH]; intros m name w Hn Hm;
    rewrite (makedirs_at_unfold _ name), (makedirs_at_unfold m name);
    apply bind_ext; intros _ w1;
    pose proof (makedirs_head_shorter name) as Hs;
    destruct (Path.split name) as [h1 t1]; simpl in Hs;
    destruct (if Path.is_empty t1 then Path.split h1 else (h1, t1))
      as [h t] eqn:Eh;
    specialize (Hs h t eq_refl);
    apply bind_ext_l; intros w2;
    (destruct (negb (Path.is_empty h) && negb (Path.is_empty t)) eqn:Ec;
     [|reflexivity]);
    apply andb_prop in Ec as [_ Ec]; apply negb_true_iff in Ec;
    specialize (Hs Ec); apply bind_ext; intros present w3;
    (destruct (negb present); [|reflexivity]).
  - lia.
  - destruct m as [|m]; [lia|].
    apply bind_ext_l. intros w4. apply except_ext. intros w5.
    apply IH; lia.
Qed.

(** [String.length name] levels of recursion are enough for [makedirs]:
    more fuel does not change what it does. *)
Lemma makedirs_fuel n name w :
  (String.length name <= n)%nat -> makedirs_at n name w = makedirs name w.
Proof. intros H. unfold makedirs. apply makedirs_at_fuel; lia. Qed.

(** A second pass of the layout step after a first one that returned
    makes nothing, whatever the first one found. *)
Lemma setup_layout_idempotent o log1 log2 w w1 :
  rank o <= 0 ->
  Path.is_empty (snd (Path.split (vis_save_dir o))) = false ->
  String.eqb (snd (Path.split (vis_save_dir o))) "." = false ->
  setup_layout o log1 w = Ok tt w1 ->
  setup_layout o log2 w1
  = Ok tt (with_log_sinks (log_sinks w1 ++ [log2])
             (with_trace (trace w1 ++ [EvExists (vis_save_dir o);
                                       EvExists (snapshot_save_dir o);
                                       EvSetupLogger log2]) w1)).
Proof.
  intros Hr Ht Hdot H.
  pose proof (setup_layout_coordinator o log1 w Hr Ht Hdot) as Hc.
  rewrite H in Hc. destruct Hc as (Hv & Hs & _).
  now apply setup_layout_present.
Qed.

(** ** Sample runs *)

Example main_default_run :
  raised (main default_args fresh_world) = None
  /\ map step_of (events (main default_args) fresh_world)
     = [StepArguments; StepSeeding; StepSeeding; StepSeeding; StepSeeding;
        StepDevices; StepDevices; StepPaths]
       ++ repeat StepLayout 13 ++ [StepDump; StepBackend; StepDriver; StepDriver]
  /\ map fst (map_to_list (files (final (main default_args fresh_world))))
     ≡ₚ ["./weights"; "./weights/train_vfiformer";
         "./weights/train_vfiformer/vis"; "./weights/train_vfiformer/snapshot"]
  /\ log_sinks (final (main default_args fresh_world))
     = ["./weights/train_vfiformer/20220301_120000.log"].
Proof.
  split; [vm_compute; reflexivity|]. split; [vm_compute; reflexivity|].
  split; [|vm_compute; reflexivity].
  vm_compute. apply Permutation_rev.
Qed.

Example main_rank_5_run :
  raised (main (with_launcher LauncherPytorch default_args) launched_world) = None
  /\ current_device
       (final (main (with_launcher LauncherPytorch default_args) launched_world))
     = Some 1
  /\ files (final (main (with_launcher LauncherPytorch default_args)
                     launched_world)) = ∅
  /\ log_sinks (final (main (with_launcher LauncherPytorch default_args)
                         launched_world)) = [].
Proof. repeat split; vm_compute; reflexivity. Qed.

(** * Further properties of [train.py] *)

(** ** The device ids: errors and what is kept *)


Lemma collect_ids_inv (toks : list string) : forall ids out,
  collect_ids toks ids = inr out ->
  exists zs, Forall2 (fun t z => Py.int t = Some z) toks zs
             /\ out = ids ++ List.filter (Z.leb 0) zs.
Proof.
  induction toks as [|t toks IH]; intros ids out H; simpl in H.
  - inversion H. exists []. split; [constructor | now rewrite app_nil_r].
  - destruct (Py.int t) as [z|] eqn:Hz; [|discriminate].
    apply IH in H as [zs [Hzs ->]]. exists (z :: zs).
    split; [now constructor|]. simpl. rewrite Z.geb_leb.
    destruct (Z.leb 0 z); [now rewrite <- app_assoc | reflexivity].
Qed.



Lemma parse_gpu_ids_inv (s : string) (ids : list Z) :
  parse_gpu_ids s = inr ids ->
  exists zs, Forall2 (fun t z => Py.int t = Some z) (Py.split "," s) zs
             /\ ids = List.filter (Z.leb 0) zs.
Proof. intros H. now apply collect_ids_inv in H. Qed.

Lemma filter_nonneg (zs : list Z) : Forall (fun d => 0 <= d) (List.filter (Z.leb 0) zs).
Proof.
  apply List.Forall_forall. intros d Hd.
  apply List.filter_In in Hd as [_ Hd]. now apply Z.leb_le.
Qed.

(** Whenever the device-id string is accepted, every token of it is an
    integer, the list of device ids is the list of the non-negative ones
    in the order of the string, so it holds no negative id and has at most
    as many ids as the string has tokens; equal ids are all kept. *)
Theorem gpu_ids_accepted (s : string) (ids : list Z) :
  parse_gpu_ids s = inr ids ->
  (exists zs, Forall2 (fun t z => Py.int t = Some z) (Py.split "," s) zs
              /\ ids = List.filter (Z.leb 0) zs)
  /\ Forall (fun d => 0 <= d) ids
  /\ (length ids <= length (Py.split "," s))%nat.
Proof.
  intros H. apply parse_gpu_ids_inv in H as [zs [Hzs ->]].
  split; [eauto|]. split; [apply filter_nonneg|].
  rewrite (Forall2_length _ _ _ Hzs). apply List.filter_length_le.
Qed.

Lemma gpu_ids_accepted_witness :
  Forall (fun d => 0 <= d) [1; 1; 3]
  /\ (length [1; 1; 3] <= length (Py.split "," "1,-5,1,3"))%nat.
Proof.
  destruct (gpu_ids_accepted "1,-5,1,3" [1; 1; 3] eq_refl) as (_ & H1 & H2).
  split; [exact H1 | exact H2].
Defined.

(** Of the device ids only the first is checked against the node: the
    device step returns exactly when the list is empty or its first id is
    a device of the node, whatever the ids after it are. *)
Theorem device_setup_checks_first_only (argv : Args) (w : World) (ids : list Z) :
  parse_gpu_ids (arg_gpu_ids argv) = inr ids ->
  (exists w', device_setup argv w = Ok ids w')
  <-> match ids with
      | [] => True
      | d :: _ => d < device_count w
      end.
Proof.
  intros H. destruct ids as [|d ids].
  - split; [auto|]. intros _. exists w. now apply device_setup_none.
  - assert (Hd : 0 <= d).
    { destruct (parse_gpu_ids_inv _ _ H) as (zs & _ & Hf).
      pose proof (filter_nonneg zs) as Hall. rewrite <- Hf in Hall.
      now inversion Hall. }
    split.
    + intros [w' E]. destruct (Z.lt_ge_cases d (device_count w)) as [|Hge];
        [assumption|]. exfalso.
      assert (Hneg : Z.ltb d 0 = false) by (apply Z.ltb_ge; lia).
      assert (Hlt : Z.ltb d (device_count w) = false) by (apply Z.ltb_ge; lia).
      destruct w as [env sm n cur rdv pg f wr clk sinks sds cb df tr].
      unfold device_setup, cuda_set_device in E. rewrite H in E. revert E.
      run. simpl in Hlt. rewrite Hneg, Hlt. discriminate.
    + intros Hlt. destruct (device_setup_first argv w d ids H Hd) as [_ E].
      rewrite (E Hlt). eauto.
Qed.

(** On a node with four devices "0,99" is accepted and "99,0" is not. *)
Lemma device_setup_checks_first_only_witness :
  (exists w', device_setup (with_gpu_ids "0,99" default_args) fresh_world
              = Ok [0; 99] w')
  /\ ~ (exists w', device_setup (with_gpu_ids "99,0" default_args) fresh_world
                   = Ok [99; 0] w').
Proof.
  split.
  - apply (device_setup_checks_first_only (with_gpu_ids "0,99" default_args)
             fresh_world [0; 99] eq_refl).
    simpl. lia.
  - intros H.
    apply (device_setup_checks_first_only (with_gpu_ids "99,0" default_args)
             fresh_world [99; 0] eq_refl) in H.
    simpl in H. lia.
Defined.

(** ** [main] as one sequence *)

Lemma main_flat argv w :
  main argv w
  = (emit EvParseArgs;;
     set_random_seed (arg_random_seed argv);;
     ids ← device_setup argv;
     '(d, r, n) ← distributed_setup (arg_launcher argv);
     '(o, log_file_path) ← resolve_paths argv ids d r n;
     setup_layout o log_file_path;;
     print_args o;;
     set_cudnn_benchmark;;
     Trainer o;;
     Trainer_train) w.
Proof.
  unfold main, resolve_options, parse_args, mbind, M_bind, bind, emit, modify,
    mret, M_ret, ret.
  cbv beta iota.
  destruct (set_random_seed _ _); cbv beta iota; [|reflexivity].
  destruct (device_setup _ _); cbv beta iota; [|reflexivity].
  destruct (distributed_setup _ _) as [[[d r] n] ?|]; cbv beta iota;
    [|reflexivity].
  destruct (resolve_paths _ _ _ _ _ _) as [[o log] ?|]; reflexivity.
Qed.

Lemma resolve_options_flat argv w :
  resolve_options argv w
  = (emit EvParseArgs;;
     set_random_seed (arg_random_seed argv);;
     ids ← device_setup argv;
     '(d, r, n) ← distributed_setup (arg_launcher argv);
     resolve_paths argv ids d r n) w.
Proof.
  unfold resolve_options, parse_args, mbind, M_bind, bind, emit, modify,
    mret, M_ret, ret.
  reflexivity.
Qed.

Lemma keeps_ext {A B} (f : World -> B) (m m' : M A) :
  (forall w, m w = m' w) -> keeps f m' -> keeps f m.
Proof. intros H Hk w. rewrite H. apply Hk. Qed.

Lemma emit_result e w : emit e w = Ok tt (with_trace (trace w ++ [e]) w).
Proof. reflexivity. Qed.

(** Computes the fields of a world written with the [with_] functions. *)
Ltac world :=
  cbv beta iota zeta delta
    [with_trace with_start_method with_current_device with_process_group
     with_files with_log_sinks with_seeds with_cudnn_benchmark all_seeded
     environ start_method device_count current_device rendezvous
     process_group files writable clock log_sinks seeds cudnn_benchmark
     driver_fails trace seed_random seed_numpy seed_torch seed_cuda].

(** ** Seeding *)

Lemma set_random_seed_result seed w :
  set_random_seed seed w
  = if Z.leb 0 seed && Z.ltb seed (2 ^ 32)
    then Ok tt (with_seeds (all_seeded seed)
                  (with_trace (trace w ++ [EvSeedRandom seed; EvSeedNumpy seed;
                                           EvSeedTorch seed; EvSeedCuda seed]) w))
    else Raise (Py.ValueError "Seed must be between 0 and 2**32 - 1")
           (with_seeds {| seed_random := Some seed;
                          seed_numpy := seed_numpy (seeds w);
                          seed_torch := seed_torch (seeds w);
                          seed_cuda := seed_cuda (seeds w) |}
              (with_trace (trace w ++ [EvSeedRandom seed; EvSeedNumpy seed]) w)).
Proof.
  destruct w as [env sm n cur rdv pg f wr clk sinks sds cb df tr].
  unfold set_random_seed, random_seed, np_random_seed, torch_manual_seed,
    cuda_manual_seed_all.
  generalize (2 ^ 32). intros bound. run.
  destruct (Z.leb 0 seed && Z.ltb seed bound); simpl; world;
    rewrite <- ?app_assoc; reflexivity.
Qed.

(** When [set_random_seed] returns, the four generators (Python's
    [random], NumPy, torch and torch's CUDA generators) hold the same seed,
    the one given, they were seeded in that order, and nothing else of the
    world has changed. *)
Theorem set_random_seed_seeds_all (seed : Z) (w w' : World) :
  set_random_seed seed w = Ok tt w' ->
  seeds w' = all_seeded seed
  /\ events (set_random_seed seed) w
     = [EvSeedRandom seed; EvSeedNumpy seed; EvSeedTorch seed; EvSeedCuda seed]
  /\ settings w' = settings w
  /\ givens w' = givens w.
Proof.
  intros H. unfold events. rewrite set_random_seed_result in *.
  destruct (Z.leb 0 seed && Z.ltb seed (2 ^ 32)); [|discriminate].
  inversion H; subst w'. destruct w; simpl.
  rewrite drop_app_length. auto.
Qed.

Lemma set_random_seed_seeds_all_witness :
  seeds (final (set_random_seed 7 fresh_world)) = all_seeded 7.
Proof.
  apply (set_random_seed_seeds_all 7 fresh_world
           (final (set_random_seed 7 fresh_world)) eq_refl).
Defined.

(** [set_random_seed] returns exactly for the seeds NumPy takes, from 0
    to 2**32 - 1. For any other seed it raises NumPy's [ValueError] when
    Python's [random] is seeded already and torch is not yet: the run
    stops there, and [main] with it. *)
Theorem set_random_seed_range (seed : Z) (w : World) :
  (raised (set_random_seed seed w) = None <-> 0 <= seed < 2 ^ 32)
  /\ (~ 0 <= seed < 2 ^ 32 ->
      raised (set_random_seed seed w)
      = Some (Py.ValueError "Seed must be between 0 and 2**32 - 1")
      /\ seed_random (seeds (final (set_random_seed seed w))) = Some seed
      /\ seed_torch (seeds (final (set_random_seed seed w))) = seed_torch (seeds w)
      /\ seed_cuda (seeds (final (set_random_seed seed w))) = seed_cuda (seeds w)
      /\ forall argv, arg_random_seed argv = seed ->
           raised (main argv w)
           = Some (Py.ValueError "Seed must be between 0 and 2**32 - 1")).
Proof.
  assert (Hmain : Z.leb 0 seed && Z.ltb seed (2 ^ 32) = false ->
            forall argv, arg_random_seed argv = seed ->
              raised (main argv w)
              = Some (Py.ValueError "Seed must be between 0 and 2**32 - 1")).
  { intros E argv Hs. rewrite main_flat.
    rewrite (bind_ok _ _ _ _ _ (emit_result _ _)).
    erewrite bind_raise; [reflexivity|].
    rewrite Hs, set_random_seed_result, E. reflexivity. }
  rewrite set_random_seed_result.
  destruct (Z.leb 0 seed && Z.ltb seed (2 ^ 32)) eqn:E.
  - apply andb_prop in E as [E1 E2]. apply Z.leb_le in E1. apply Z.ltb_lt in E2.
    split; [split; [lia | reflexivity] | lia].
  - assert (Hout : ~ 0 <= seed < 2 ^ 32).
    { intros [H1 H2]. apply Z.leb_le in H1. apply Z.ltb_lt in H2.
      now rewrite H1, H2 in E. }
    split; [split; [discriminate | tauto]|].
    intros _. split; [reflexivity|].
    split; [destruct w; reflexivity|].
    split; [destruct w; reflexivity|].
    split; [destruct w; reflexivity|].
    now apply Hmain.
Qed.

Lemma set_random_seed_range_witness :
  raised (set_random_seed (-1) fresh_world)
  = Some (Py.ValueError "Seed must be between 0 and 2**32 - 1")
  /\ raised (main (with_random_seed (-1) default_args) fresh_world)
     = Some (Py.ValueError "Seed must be between 0 and 2**32 - 1").
Proof.
  destruct (proj2 (set_random_seed_range (-1) fresh_world)) as (H1 & _ & _ & _ & H2).
  - lia.
  - split; [exact H1|]. now apply H2.
Defined.

(** ** [init_dist]: what it needs and what it leaves *)

Lemma init_process_group_result backend w :
  init_process_group backend w
  = let w' := with_trace (trace w ++ [EvInitProcessGroup backend]) w in
    match process_group w with
    | Some _ =>
        Raise (Py.RuntimeError
                 "trying to initialize the default process group twice!") w'
    | None =>
        match rendezvous w with
        | Some g => Ok tt (with_process_group (Some g) w')
        | None => Raise (Py.RuntimeError "process group initialization failed") w'
        end
    end.
Proof.
  destruct w as [env sm n cur rdv pg f wr clk sinks sds cb df tr].
  unfold init_process_group. run. destruct pg; [reflexivity|].
  destruct rdv; reflexivity.
Qed.

(** [init_dist] after its guard, step by step. *)
Lemma init_dist_steps backend w :
  init_dist backend w
  = match ensure_spawn w with
    | Raise e w1 => Raise e w1
    | Ok _ w1 =>
        let w2 := with_trace (trace w1 ++ [EvEnviron "RANK"]) w1 in
        match environ w1 !! "RANK" with
        | None => Raise (Py.KeyError "RANK") w2
        | Some s =>
            match Py.int s with
            | None => Raise (Py.invalid_literal s) w2
            | Some r =>
                let w3 := with_trace (trace w2 ++ [EvDeviceCount]) w2 in
                if Z.eqb (device_count w1) 0 then Raise Py.ZeroDivisionError w3
                else
                  let d := r mod device_count w1 in
                  let w4 := with_trace (trace w3 ++ [EvSetDevice d]) w3 in
                  if Z.ltb d 0 then init_process_group backend w4
                  else if Z.ltb d (device_count w1)
                       then init_process_group backend
                              (with_current_device (Some d) w4)
                       else Raise (Py.RuntimeError
                                     "CUDA error: invalid device ordinal") w4
            end
        end
    end.
Proof.
  unfold init_dist. unfold mbind at 1. unfold M_bind, bind at 1.
  destruct (ensure_spawn w) as [[] w1 | e w1]; [|reflexivity].
  destruct w1 as [env sm n cur rdv pg f wr clk sinks sds cb df tr].
  unfold environ_get, int_, cuda_device_count, cuda_set_device, Py.mod_. run.
  destruct (env !! "RANK") as [s|]; [|reflexivity]. simpl.
  destruct (Py.int s) as [r|]; [|reflexivity]. simpl.
  destruct (Z.eqb n 0); [reflexivity|]. simpl.
  destruct (Z.ltb (r mod n) 0); [reflexivity|].
  destruct (Z.ltb (r mod n) n); reflexivity.
Qed.

(** When [init_dist] returns: the start method was free or spawn, [RANK]
    held an integer, the node has devices, no group existed, and the
    joining succeeded. *)
Lemma init_dist_ok_inv backend w w' :
  init_dist backend w = Ok tt w' ->
  (start_method w = None \/ start_method w = Some Spawn)
  /\ start_method w' = Some Spawn
  /\ (exists s r, environ w !! "RANK" = Some s /\ Py.int s = Some r
        /\ device_count w <> 0
        /\ (0 < device_count w ->
            current_device w' = Some (r mod device_count w)))
  /\ process_group w = None
  /\ (exists g, rendezvous w = Some g /\ process_group w' = Some g)
  /\ givens w' = givens w
  /\ files w' = files w
  /\ log_sinks w' = log_sinks w.
Proof.
  rewrite init_dist_steps, ensure_spawn_result.
  destruct w as [env sm n cur rdv pg f wr clk sinks sds cb df tr].
  assert (Hsm : forall t,
    (let w1 := {| environ := env; start_method := Some Spawn;
                  device_count := n; current_device := cur;
                  rendezvous := rdv; process_group := pg; files := f;
                  writable := wr; clock := clk; log_sinks := sinks;
                  seeds := sds; cudnn_benchmark := cb; driver_fails := df;
                  trace := t |} in
     match environ w1 !! "RANK" with
     | None => Raise (Py.KeyError "RANK")
                 (with_trace (trace w1 ++ [EvEnviron "RANK"]) w1)
     | Some s =>
         match Py.int s with
         | None => Raise (Py.invalid_literal s)
                     (with_trace (trace w1 ++ [EvEnviron "RANK"]) w1)
         | Some r =>
             let w2 := with_trace (trace w1 ++ [EvEnviron "RANK"]) w1 in
             let w3 := with_trace (trace w2 ++ [EvDeviceCount]) w2 in
             if Z.eqb (device_count w1) 0 then Raise Py.ZeroDivisionError w3
             else
               let d := r mod device_count w1 in
               let w4 := with_trace (trace w3 ++ [EvSetDevice d]) w3 in
               if Z.ltb d 0 then init_process_group backend w4
               else if Z.ltb d (device_count w1)
                    then init_process_group backend
                           (with_current_device (Some d) w4)
                    else Raise (Py.RuntimeError
                                  "CUDA error: invalid device ordinal") w4
         end
     end = Ok tt w') ->
    start_method w' = Some Spawn
    /\ (exists s r, env !! "RANK" = Some s /\ Py.int s = Some r
          /\ n <> 0 /\ (0 < n -> current_device w' = Some (r mod n)))
    /\ pg = None
    /\ (exists g, rdv = Some g /\ process_group w' = Some g)
    /\ givens w' = (env, n, rdv, wr, clk, df)
    /\ files w' = f
    /\ log_sinks w' = sinks).
  { intros t. world.
    destruct (env !! "RANK") as [s|] eqn:Henv; [|discriminate].
    destruct (Py.int s) as [r|] eqn:Hint; [|discriminate].
    destruct (Z.eqb n 0) eqn:Hz; [discriminate|]. apply Z.eqb_neq in Hz.
    destruct (Z.ltb (r mod n) 0) eqn:Hneg;
      [|destruct (Z.ltb (r mod n) n) eqn:Hlt; [|discriminate]];
      rewrite init_process_group_result; world;
      (destruct pg; [discriminate|]); (destruct rdv as [g|]; [|discriminate]);
      intros H; inversion H; subst w'; unfold givens; world;
      (split; [reflexivity|]);
      (split; [exists s, r; repeat split; auto|]); eauto 10.
    intros Hpos. apply Z.ltb_lt in Hneg.
    pose proof (Z.mod_pos_bound r n Hpos). lia. }
  unfold givens. world.
  destruct sm as [[]|]; try discriminate; intros H; apply Hsm in H;
    (split; [auto|]); exact H.
Qed.

(** When [init_dist] returns, the multiprocessing start method is spawn,
    [RANK] of the environment is an integer [r], the process is in the
    group the rendezvous gave, which it was not in a group before, and on
    a node with devices the current device is [r mod device_count].
    Nothing of the file system or the log sinks is touched. *)
Theorem init_dist_postcondition (backend : string) (w w' : World) :
  init_dist backend w = Ok tt w' ->
  start_method w' = Some Spawn
  /\ (exists s r, environ w !! "RANK" = Some s /\ Py.int s = Some r
        /\ device_count w <> 0
        /\ (0 < device_count w ->
            current_device w' = Some (r mod device_count w)))
  /\ process_group w = None
  /\ (exists g, rendezvous w = Some g /\ process_group w' = Some g)
  /\ files w' = files w
  /\ log_sinks w' = log_sinks w.
Proof.
  intros H. destruct (init_dist_ok_inv _ _ _ H)
    as (_ & H1 & H2 & H3 & H4 & _ & H5 & H6).
  auto 10.
Qed.

Lemma init_dist_postcondition_witness :
  start_method (final (init_dist "nccl" launched_world)) = Some Spawn
  /\ process_group (final (init_dist "nccl" launched_world)) = Some (8, 5)
  /\ files (final (init_dist "nccl" launched_world)) = files launched_world.
Proof.
  assert (E : init_dist "nccl" launched_world
              = Ok tt (final (init_dist "nccl" launched_world)))
    by (vm_compute; reflexivity).
  destruct (init_dist_postcondition "nccl" launched_world _ E)
    as (H1 & _ & _ & (g & Hg & Hpg) & Hf & _).
  split; [exact H1|]. split; [|exact Hf].
  rewrite Hpg, <- Hg. reflexivity.
Defined.






(** ** The resolved options *)

Lemma set_random_seed_givens seed : keeps givens (set_random_seed seed).
Proof.
  unfold set_random_seed, random_seed, np_random_seed, torch_manual_seed,
    cuda_manual_seed_all, emit. keeps.
Qed.

Lemma set_random_seed_settings seed : keeps settings (set_random_seed seed).
Proof.
  unfold set_random_seed, random_seed, np_random_seed, torch_manual_seed,
    cuda_manual_seed_all, emit. keeps.
Qed.

Lemma device_setup_givens args : keeps givens (device_setup args).
Proof. unfold device_setup, cuda_set_device, lift, emit. keeps. Qed.

Lemma device_setup_bindings args : keeps bindings (device_setup args).
Proof. unfold device_setup, cuda_set_device, lift, emit. keeps. Qed.

Lemma device_setup_disk args :
  keeps (fun w => (files w, log_sinks w)) (device_setup args).
Proof. unfold device_setup, cuda_set_device, lift, emit. keeps. Qed.

Lemma distributed_setup_givens l : keeps givens (distributed_setup l).
Proof.
  unfold distributed_setup, init_dist, ensure_spawn, get_start_method,
    set_start_method, environ_get, int_, cuda_device_count, cuda_set_device,
    init_process_group, get_world_size, get_rank, print, emit.
  destruct l; keeps.
Qed.

Lemma distributed_setup_disk l :
  keeps (fun w => (files w, log_sinks w)) (distributed_setup l).
Proof.
  unfold distributed_setup, init_dist, ensure_spawn, get_start_method,
    set_start_method, environ_get, int_, cuda_device_count, cuda_set_device,
    init_process_group, get_world_size, get_rank, print, emit.
  destruct l; keeps.
Qed.

Lemma device_setup_ok_inv argv w ids w' :
  device_setup argv w = Ok ids w' -> parse_gpu_ids (arg_gpu_ids argv) = inr ids.
Proof.
  unfold device_setup. intros H.
  apply bind_inv_ok in H as (ids0 & w0 & H0 & H).
  apply bind_inv_ok in H as ([] & w1 & _ & H).
  inversion H; subst ids0.
  destruct (parse_gpu_ids (arg_gpu_ids argv)); [discriminate|].
  now inversion H0.
Qed.

Lemma distributed_setup_pytorch_inv w d r n w' :
  distributed_setup LauncherPytorch w = Ok (d, r, n) w' ->
  exists w1 k,
    init_dist "nccl" w = Ok tt w1
    /\ d = true /\ n = Some k
    /\ process_group w1 = Some (k, r)
    /\ settings w' = settings w1.
Proof.
  unfold distributed_setup. intros H.
  apply bind_inv_ok in H as ([] & w1 & Hi & H). exists w1. revert H.
  destruct w1 as [env sm c cur rdv pg f wr clk sinks sds cb df tr].
  unfold get_world_size, get_rank, print. run.
  destruct pg as [[k rk]|]; simpl; [|discriminate].
  intros H. inversion H; subst. exists k. auto.
Qed.

(** The world at the distribution step of [main], and what the options
    are made of, when the options get resolved. *)
Lemma resolve_options_inv argv w o log w' :
  resolve_options argv w = Ok (o, log) w' ->
  exists w1 w2 ids d r n w3,
    settings w1 = settings w
    /\ device_setup argv w1 = Ok ids w2
    /\ givens w2 = givens w
    /\ bindings w2 = bindings w
    /\ files w2 = files w /\ log_sinks w2 = log_sinks w
    /\ distributed_setup (arg_launcher argv) w2 = Ok (d, r, n) w3
    /\ settings w' = settings w3
    /\ givens w' = givens w
    /\ log = Path.join (arg_save_folder argv) (arg_name argv)
             +:+ "/" +:+ clock w +:+ ".log"
    /\ o = {| parsed := argv; gpu_ids := ids; dist := d; rank := r;
              world_size := n;
              save_folder := Path.join (arg_save_folder argv) (arg_name argv);
              vis_save_dir :=
                Path.join (Path.join (arg_save_folder argv) (arg_name argv)) "vis";
              snapshot_save_dir :=
                Path.join (Path.join (arg_save_folder argv) (arg_name argv))
                  "snapshot" |}.
Proof.
  rewrite resolve_options_flat. intros H.
  apply bind_inv_ok in H as ([] & w0 & H0 & H).
  rewrite emit_result in H0. inversion H0; subst w0. clear H0.
  apply bind_inv_ok in H as ([] & w1 & H1 & H).
  apply bind_inv_ok in H as (ids & w2 & H2 & H).
  apply bind_inv_ok in H as ([[d r] n] & w3 & H3 & H).
  exists w1, w2, ids, d, r, n, w3.
  pose proof (keeps_ok _ _ _ _ _ (set_random_seed_givens _) H1) as G1.
  pose proof (keeps_ok _ _ _ _ _ (set_random_seed_settings _) H1) as S1.
  pose proof (keeps_ok _ _ _ _ _ (device_setup_givens _) H2) as G2.
  pose proof (keeps_ok _ _ _ _ _ (device_setup_bindings _) H2) as B2.
  pose proof (keeps_ok _ _ _ _ _ (device_setup_disk _) H2) as D2.
  pose proof (keeps_ok _ _ _ _ _ (distributed_setup_givens _) H3) as G3.
  assert (E0 : settings (with_trace (trace w ++ [EvParseArgs]) w) = settings w
               /\ givens (with_trace (trace w ++ [EvParseArgs]) w) = givens w)
    by (destruct w; split; reflexivity).
  destruct E0 as [S0 G0]. rewrite S0 in S1. rewrite G0 in G1. rewrite G1 in G2.
  rewrite G2 in G3.
  assert (B1 : bindings w1 = bindings w)
    by (unfold settings in S1; unfold bindings; inversion S1; congruence).
  assert (D1 : files w1 = files w /\ log_sinks w1 = log_sinks w)
    by (unfold settings in S1; inversion S1; auto).
  destruct D1 as [F1 L1]. inversion D2 as [[F2 L2]].
  assert (Hc : clock w3 = clock w) by (unfold givens in G3; now inversion G3).
  unfold resolve_paths, strftime in H.
  apply bind_inv_ok in H as (stamp & w4 & H4 & H).
  apply bind_inv_ok in H4 as ([] & w5 & H5 & H4).
  rewrite emit_result in H5. inversion H5; subst w5. clear H5.
  inversion H4; subst stamp w4. clear H4.
  inversion H; subst o log w'. clear H.
  assert (E4 : settings (with_trace (trace w3 ++ [EvStrftime]) w3) = settings w3
               /\ givens (with_trace (trace w3 ++ [EvStrftime]) w3) = givens w3
               /\ clock (with_trace (trace w3 ++ [EvStrftime]) w3) = clock w3)
    by (destruct w3; repeat split; reflexivity).
  destruct E4 as (S4 & G4 & C4). rewrite ?C4, ?Hc, ?G4.
  repeat split; auto; congruence.
Qed.

(** In multi-process mode the options [main] resolves have [dist] true,
    and their rank and world size are what the process group reports:
    the rank that gates the layout is the one of the group, not [RANK] of
    the environment. By then the start method is spawn and the process is
    in the group. *)
Theorem launcher_pytorch_options
    (argv : Args) (w : World) (o : Opts) (log_file_path : string) (w' : World) :
  arg_launcher argv = LauncherPytorch ->
  resolve_options argv w = Ok (o, log_file_path) w' ->
  dist o = true
  /\ exists n r,
       rendezvous w = Some (n, r)
       /\ world_size o = Some n
       /\ rank o = r
       /\ process_group w' = Some (n, r)
       /\ start_method w' = Some Spawn.
Proof.
  intros Hl H.
  apply resolve_options_inv in H
    as (w1 & w2 & ids & d & r & n & w3 & _ & _ & G2 & _ & _ & _ & H3 & S' & _ & _ & ->).
  rewrite Hl in H3.
  apply distributed_setup_pytorch_inv in H3 as (wi & k & Hi & -> & -> & Hpg & Si).
  apply init_dist_ok_inv in Hi as (_ & Hsm & _ & _ & (g & Hg & Hpg') & _).
  simpl. split; [reflexivity|]. exists k, r.
  assert (Hr : rendezvous w2 = rendezvous w)
    by (unfold givens in G2; now inversion G2).
  unfold settings in Si. inversion Si as [[E1 E2 E3 E4 E5]].
  unfold settings in S'. inversion S' as [[T1 T2 T3 T4 T5]].
  repeat split; try congruence.
Qed.

Lemma launcher_pytorch_options_witness :
  exists o,
    gpu_ids o = [0] /\ dist o = true /\ rank o = 5 /\ world_size o = Some 8.
Proof.
  assert (E : exists o log,
             resolve_options (with_launcher LauncherPytorch default_args)
               launched_world
             = Ok (o, log)
                 (final (resolve_options (with_launcher LauncherPytorch default_args)
                           launched_world))
             /\ gpu_ids o = [0]).
  { eexists _, _. split; vm_compute; reflexivity. }
  destruct E as (o & log & E & Hids). exists o.
  destruct (launcher_pytorch_options
              (with_launcher LauncherPytorch default_args) launched_world
              o log _ eq_refl E)
    as (Hd & n & r & Hrdv & Hn & Hr & _).
  assert (n = 8 /\ r = 5) as [-> ->] by (vm_compute in Hrdv; now inversion Hrdv).
  auto.
Defined.

(** In multi-process mode, on a node with a device count that is not
    negative, the options get resolved only when [RANK] holds an integer
    [r] and the node has a device; the current device is then
    [r mod device_count], whatever device [--gpu_ids] named first. *)
Theorem launcher_pytorch_device
    (argv : Args) (w : World) (o : Opts) (log_file_path : string) (w' : World) :
  arg_launcher argv = LauncherPytorch ->
  0 <= device_count w ->
  resolve_options argv w = Ok (o, log_file_path) w' ->
  exists s r,
    environ w !! "RANK" = Some s /\ Py.int s = Some r
    /\ 0 < device_count w
    /\ current_device w' = Some (r mod device_count w).
Proof.
  intros Hl Hn H.
  apply resolve_options_inv in H
    as (w1 & w2 & ids & d & r & n & w3 & _ & _ & G2 & _ & _ & _ & H3 & S' & _ & _ & ->).
  rewrite Hl in H3.
  apply distributed_setup_pytorch_inv in H3 as (wi & k & Hi & _ & _ & _ & Si).
  apply init_dist_ok_inv in Hi as (_ & _ & (s & r0 & Hs & Hr & Hz & Hd) & _).
  unfold givens in G2. inversion G2 as [[E1 E2 E3 E4 E5 E6]].
  rewrite E1, E2 in *. exists s, r0.
  assert (Hpos : 0 < device_count w) by lia.
  repeat split; auto.
  unfold settings in S', Si. inversion S'. inversion Si. rewrite <- (Hd Hpos).
  congruence.
Qed.

(** Rank 5 asks for device 3 and is bound to device 1 of four. *)
Lemma launcher_pytorch_device_witness :
  parse_gpu_ids "3" = inr [3]
  /\ current_device
       (final (resolve_options
                 (with_gpu_ids "3" (with_launcher LauncherPytorch default_args))
                 launched_world))
     = Some 1.
Proof.
  split; [reflexivity|].
  assert (E : exists o log,
             resolve_options
               (with_gpu_ids "3" (with_launcher LauncherPytorch default_args))
               launched_world
             = Ok (o, log)
                 (final (resolve_options
                           (with_gpu_ids "3"
                              (with_launcher LauncherPytorch default_args))
                           launched_world))).
  { eexists _, _. vm_compute. reflexivity. }
  destruct E as (o & log & E).
  destruct (launcher_pytorch_device
              (with_gpu_ids "3" (with_launcher LauncherPytorch default_args))
              launched_world o log _ eq_refl ltac:(simpl; lia) E)
    as (s & r & Hs & Hr & _ & Hd).
  rewrite Hd.
  assert (s = "5") by (vm_compute in Hs; congruence). subst s.
  assert (r = 5) by (vm_compute in Hr; congruence). subst r. reflexivity.
Defined.

(** ** What a run leaves alone *)

Lemma mkdir_bindings p : keeps bindings (mkdir p).
Proof. unfold mkdir, emit. keeps. Qed.

Lemma mkdir_current_device p : keeps current_device (mkdir p).
Proof. unfold mkdir, emit. keeps. Qed.

Lemma exists_bindings p : keeps bindings (exists_ p).
Proof. unfold exists_, emit. keeps. Qed.

Lemma exists_current_device p : keeps current_device (exists_ p).
Proof. unfold exists_, emit. keeps. Qed.

Lemma makedirs_at_bindings fuel : forall name, keeps bindings (makedirs_at fuel name).
Proof.
  pose proof mkdir_bindings. pose proof exists_bindings.
  induction fuel as [|fuel IH]; intros name; simpl; unfold emit; keeps; auto.
Qed.

Lemma makedirs_at_current_device fuel :
  forall name, keeps current_device (makedirs_at fuel name).
Proof.
  pose proof mkdir_current_device. pose proof exists_current_device.
  induction fuel as [|fuel IH]; intros name; simpl; unfold emit; keeps; auto.
Qed.

Lemma setup_layout_bindings o log : keeps bindings (setup_layout o log).
Proof.
  pose proof mkdir_bindings. pose proof exists_bindings.
  pose proof makedirs_at_bindings.
  unfold setup_layout, makedirs, setup_logger, emit. keeps; auto.
Qed.

Lemma setup_layout_current_device o log :
  keeps current_device (setup_layout o log).
Proof.
  pose proof mkdir_current_device. pose proof exists_current_device.
  pose proof makedirs_at_current_device.
  unfold setup_layout, makedirs, setup_logger, emit. keeps; auto.
Qed.

Lemma after_layout_bindings o :
  keeps bindings (print_args o;; set_cudnn_benchmark;; Trainer o;; Trainer_train).
Proof.
  unfold print_args, set_cudnn_benchmark, Trainer, Trainer_train, emit. keeps.
Qed.

Lemma after_layout_current_device o :
  keeps current_device
    (print_args o;; set_cudnn_benchmark;; Trainer o;; Trainer_train).
Proof.
  unfold print_args, set_cudnn_benchmark, Trainer, Trainer_train, emit. keeps.
Qed.

Lemma single_process_bindings argv :
  arg_launcher argv = LauncherNone -> keeps bindings (main argv).
Proof.
  intros Hl. apply (keeps_ext _ _ _ (main_flat argv)). rewrite Hl.
  apply keeps_bind; [unfold emit; keeps|]. intros _.
  apply keeps_bind.
  { unfold set_random_seed, random_seed, np_random_seed, torch_manual_seed,
      cuda_manual_seed_all, emit. keeps. }
  intros _. apply keeps_bind; [apply device_setup_bindings|]. intros ids.
  apply keeps_bind; [unfold distributed_setup, print, emit; keeps|].
  intros [[d r] n].
  apply keeps_bind; [unfold resolve_paths, strftime, emit; keeps|].
  intros [o log].
  apply keeps_bind; [apply setup_layout_bindings|]. intros _.
  apply after_layout_bindings.
Qed.

Lemma cpu_single_process_device argv :
  arg_launcher argv = LauncherNone ->
  parse_gpu_ids (arg_gpu_ids argv) = inr [] ->
  keeps current_device (main argv).
Proof.
  intros Hl Hids. apply (keeps_ext _ _ _ (main_flat argv)). rewrite Hl.
  apply keeps_bind; [unfold emit; keeps|]. intros _.
  apply keeps_bind.
  { unfold set_random_seed, random_seed, np_random_seed, torch_manual_seed,
      cuda_manual_seed_all, emit. keeps. }
  intros _. apply keeps_bind.
  { apply keeps_pure. intros w. now rewrite device_setup_none. }
  intros ids.
  apply keeps_bind; [unfold distributed_setup, print, emit; keeps|].
  intros [[d r] n].
  apply keeps_bind; [unfold resolve_paths, strftime, emit; keeps|].
  intros [o log].
  apply keeps_bind; [apply setup_layout_current_device|]. intros _.
  apply after_layout_current_device.
Qed.

(** In single-process mode a run of [main], however it ends, leaves the
    multiprocessing start method and the process group as they were; and
    when the device-id string holds no id that is not negative (CPU-only
    mode) it leaves the current CUDA device as it was, too. *)
Theorem single_process_leaves_distribution (argv : Args) (w : World) :
  arg_launcher argv = LauncherNone ->
  start_method (final (main argv w)) = start_method w
  /\ process_group (final (main argv w)) = process_group w
  /\ (parse_gpu_ids (arg_gpu_ids argv) = inr [] ->
      current_device (final (main argv w)) = current_device w).
Proof.
  intros Hl. pose proof (single_process_bindings argv Hl w) as H.
  unfold bindings in H. injection H as H1 H2.
  split; [exact H1|]. split; [exact H2|].
  intros Hids. exact (cpu_single_process_device argv Hl Hids w).
Qed.

Lemma single_process_leaves_distribution_witness :
  start_method (final (main (with_gpu_ids "-1" default_args) fresh_world)) = None
  /\ process_group (final (main (with_gpu_ids "-1" default_args) fresh_world))
     = None
  /\ current_device (final (main (with_gpu_ids "-1" default_args) fresh_world))
     = None.
Proof.
  destruct (single_process_leaves_distribution
              (with_gpu_ids "-1" default_args) fresh_world eq_refl)
    as (H1 & H2 & H3).
  split; [exact H1|]. split; [exact H2|]. exact (H3 eq_refl).
Defined.

(** A device-id string that is refused ends [main] before anything is
    set up: the start method, the current device, the process group, the
    file system and the log sinks are as they were. When the seed is one
    NumPy takes, the exception of [main] is the [ValueError] of the
    token. *)
Theorem refused_gpu_ids_stop_main (argv : Args) (w : World) (e : Py.Exn) :
  parse_gpu_ids (arg_gpu_ids argv) = inl e ->
  (exists e', raised (main argv w) = Some e')
  /\ settings (final (main argv w)) = settings w
  /\ (0 <= arg_random_seed argv < 2 ^ 32 -> raised (main argv w) = Some e).
Proof.
  intros Hids. rewrite main_flat.
  rewrite (bind_ok _ _ _ _ _ (emit_result _ _)).
  set (w0 := with_trace (trace w ++ [EvParseArgs]) w).
  assert (S0 : settings w0 = settings w) by (destruct w; reflexivity).
  pose proof (set_random_seed_settings (arg_random_seed argv) w0) as S1.
  pose proof (set_random_seed_result (arg_random_seed argv) w0) as R1.
  destruct (set_random_seed (arg_random_seed argv) w0) as [[] w1 | e1 w1] eqn:E1.
  - rewrite (bind_ok _ _ _ _ _ E1).
    rewrite (bind_raise _ _ _ _ _ (device_setup_refused argv w1 e Hids)).
    simpl in *. split; [eauto|]. split; [congruence | auto].
  - rewrite (bind_raise _ _ _ _ _ E1). simpl in *.
    split; [eauto|]. split; [congruence|].
    intros [H1 H2]. apply Z.leb_le in H1. apply Z.ltb_lt in H2.
    rewrite H1, H2 in R1. discriminate.
Qed.

Lemma refused_gpu_ids_stop_main_witness :
  raised (main (with_gpu_ids "0,x" default_args) fresh_world)
  = Some (Py.invalid_literal "x")
  /\ settings (final (main (with_gpu_ids "0,x" default_args) fresh_world))
     = settings fresh_world.
Proof.
  destruct (refused_gpu_ids_stop_main (with_gpu_ids "0,x" default_args)
              fresh_world (Py.invalid_literal "x") eq_refl) as (_ & H1 & H2).
  split; [apply H2; simpl; lia | exact H1].
Defined.

(** ** [--local_rank] *)


Lemma main_via_resolve argv w :
  main argv w
  = match resolve_options argv w with
    | Ok (o, log) w1 =>
        (setup_layout o log;; print_args o;; set_cudnn_benchmark;;
         Trainer o;; Trainer_train) w1
    | Raise e w1 => Raise e w1
    end.
Proof.
  unfold main. unfold mbind at 1. unfold M_bind. unfold bind at 1.
  destruct (resolve_options argv w) as [[o log] w1|]; reflexivity.
Qed.


(** ** The layout step only adds directories *)












(** ** A run that returns *)

Lemma block_no_driver lo hi n evs :
  block lo hi n evs -> (hi < 7)%nat -> List.filter is_driver evs = [].
Proof.
  intros (_ & F & _) Hhi. induction F as [|ev evs Hev _ IH]; [reflexivity|].
  simpl. rewrite IH. destruct ev; simpl in *; try reflexivity; lia.
Qed.

(** When [main] returns, the options were resolved, the layout step has
    returned, and the last four calls are the dump of the resolved
    options, the cuDNN switch, the construction of the trainer on the
    same options and its [train]: the trainer is made and started once,
    at the very end, and cuDNN's benchmark mode is on. *)
Theorem main_returns_after_training (argv : Args) (w w' : World) :
  main argv w = Ok tt w' ->
  exists o log w1 w2 evs,
    resolve_options argv w = Ok (o, log) w1
    /\ setup_layout o log w1 = Ok tt w2
    /\ events (main argv) w
       = evs ++ [EvPrintArgs o; EvCudnnBenchmark; EvTrainer o; EvTrain]
    /\ List.filter is_driver evs = []
    /\ cudnn_benchmark w' = true
    /\ driver_fails w' = false.
Proof.
  intros H. unfold events. rewrite main_via_resolve in *.
  destruct (resolve_options_block argv w) as [evs1 [T1 B1]].
  destruct (resolve_options argv w) as [[o log] w1 | e1 w1]; [|discriminate].
  destruct (quiet_setup_layout o log w1) as [evs2 [T2 B2]].
  apply bind_inv_ok in H as ([] & w2 & H2 & H). rewrite H2 in T2.
  simpl in T1, T2. rewrite T1 in T2.
  exists o, log, w1, w2, (evs1 ++ evs2).
  split; [reflexivity|]. split; [exact H2|].
  rewrite (bind_ok _ _ _ _ _ H2).
  destruct w2 as [env sm c cur rdv pg f wr clk sinks sds cb df tr].
  simpl in T2. subst tr. revert H.
  unfold print_args, set_cudnn_benchmark, Trainer, Trainer_train. run.
  destruct df; simpl; [discriminate|]. intros H. inversion H; subst w'.
  world. rewrite <- !app_assoc, drop_app_length.
  split; [reflexivity|]. split; [|auto].
  rewrite List.filter_app, (block_no_driver _ _ _ _ B1) by lia.
  apply (block_no_driver _ _ _ _ B2). simpl. lia.
Qed.

Lemma main_returns_after_training_witness :
  exists evs,
    events (main default_args) fresh_world
    = evs ++ [EvPrintArgs default_opts; EvCudnnBenchmark;
              EvTrainer default_opts; EvTrain]
    /\ List.filter is_driver evs = [].
Proof.
  assert (E : main default_args fresh_world
              = Ok tt (final (main default_args fresh_world)))
    by (vm_compute; reflexivity).
  destruct (main_returns_after_training default_args fresh_world _ E)
    as (o & log & w1 & w2 & evs & Hr & _ & Hev & Hd & _).
  assert (Ho : o = default_opts) by (vm_compute in Hr; now inversion Hr).
  subst o. exists evs. auto.
Defined.

(** ** The directories of a run *)

Lemma append_assoc a b c : (a +:+ b) +:+ c = a +:+ (b +:+ c).
Proof.
  induction a as [|x a IH]; [reflexivity|].
  change (String x ((a +:+ b) +:+ c) = String x (a +:+ (b +:+ c))).
  now rewrite IH.
Qed.

(** The directory part of [os.path.join(a, b)] is the same for every
    name [b]. *)
Lemma split_join_head a b b' :
  is_name b = true -> is_name b' = true ->
  fst (Path.split (Path.join a b)) = fst (Path.split (Path.join a b')).
Proof.
  intros Hb Hb'.
  assert (Ht : is_name_tail b = true)
    by (unfold is_name in Hb; now apply andb_prop in Hb as [_ Hb]).
  assert (Ht' : is_name_tail b' = true)
    by (unfold is_name in Hb'; now apply andb_prop in Hb' as [_ Hb']).
  assert (Hcut : forall a0, fst (Path.cut (a0 +:+ b)) = fst (Path.cut (a0 +:+ b'))).
  { intros a0. now rewrite !cut_app_name. }
  assert (Hhead : forall p q, fst (Path.cut p) = fst (Path.cut q) ->
            fst (Path.split p) = fst (Path.split q)).
  { intros p q E. unfold Path.split.
    destruct (Path.cut p) as [h t], (Path.cut q) as [h' t']. simpl in E.
    subst h'.
    destruct (negb (Path.is_empty h) && negb (Path.all_sep h)); reflexivity. }
  apply Hhead. unfold Path.join.
  rewrite (is_name_not_sep b Hb), (is_name_not_sep b' Hb').
  destruct (Path.is_empty a || Path.endswith_sep a); [apply Hcut|].
  change (String Path.sep b) with (String Path.sep EmptyString +:+ b).
  change (String Path.sep b') with (String Path.sep EmptyString +:+ b').
  rewrite <- !append_assoc. apply Hcut.
Qed.

(** Whatever the options, the visualization and the snapshot directory
    that [main] derives are entries named "vis" and "snapshot" of one
    and the same directory, and the log file is named after the clock in
    the save folder. A run name that starts with "/" is taken as the
    save folder itself: [--save_folder] is then not used. *)
Theorem run_directories_are_siblings
    (argv : Args) (w : World) (o : Opts) (log_file_path : string) (w' : World) :
  resolve_options argv w = Ok (o, log_file_path) w' ->
  snd (Path.split (vis_save_dir o)) = "vis"
  /\ snd (Path.split (snapshot_save_dir o)) = "snapshot"
  /\ fst (Path.split (vis_save_dir o)) = fst (Path.split (snapshot_save_dir o))
  /\ log_file_path = save_folder o +:+ "/" +:+ clock w +:+ ".log"
  /\ (Path.startswith_sep (arg_name argv) = true -> save_folder o = arg_name argv).
Proof.
  intros H.
  apply resolve_options_inv in H
    as (w1 & w2 & ids & d & r & n & w3 & _ & _ & _ & _ & _ & _ & _ & _ & _ & -> & ->).
  simpl. split; [now apply split_join_name|].
  split; [now apply split_join_name|].
  split; [now apply split_join_head|]. split; [reflexivity|].
  intros Hn. unfold Path.join at 1. now rewrite Hn.
Qed.

Lemma run_directories_are_siblings_witness :
  exists o log,
    save_folder o = "/data/run7"
    /\ vis_save_dir o = "/data/run7/vis"
    /\ fst (Path.split (vis_save_dir o)) = fst (Path.split (snapshot_save_dir o))
    /\ log = "/data/run7/20220301_120000.log".
Proof.
  assert (E : exists o log,
             resolve_options (with_name "/data/run7" default_args) fresh_world
             = Ok (o, log)
                 (final (resolve_options (with_name "/data/run7" default_args)
                           fresh_world))
             /\ vis_save_dir o = "/data/run7/vis").
  { eexists _, _. split; vm_compute; reflexivity. }
  destruct E as (o & log & E & Hv). exists o, log.
  destruct (run_directories_are_siblings
              (with_name "/data/run7" default_args) fresh_world o log _ E)
    as (_ & _ & Hs & Hl & Hn).
  rewrite Hl, (Hn eq_refl). auto.
Defined.

(** ** [os.mkdir] after [os.makedirs] *)









(** ** The other ranks of a distributed run *)

Lemma resolve_options_disk argv : keeps disk (resolve_options argv).
Proof.
  apply (keeps_ext _ _ _ (resolve_options_flat argv)).
  apply keeps_bind; [unfold emit; keeps|]. intros _.
  apply keeps_bind.
  { unfold set_random_seed, random_seed, np_random_seed, torch_manual_seed,
      cuda_manual_seed_all, emit. keeps. }
  intros _. apply keeps_bind; [apply device_setup_disk|]. intros ids.
  apply keeps_bind; [apply distributed_setup_disk|]. intros [[d r] n].
  unfold resolve_paths, strftime, emit. keeps.
Qed.

Lemma after_layout_disk o :
  keeps disk (print_args o;; set_cudnn_benchmark;; Trainer o;; Trainer_train).
Proof.
  unfold print_args, set_cudnn_benchmark, Trainer, Trainer_train, emit. keeps.
Qed.

Lemma resolve_options_pytorch_rank argv w o log w' :
  arg_launcher argv = LauncherPytorch ->
  resolve_options argv w = Ok (o, log) w' ->
  exists n, rendezvous w = Some (n, rank o).
Proof.
  intros Hl H.
  apply resolve_options_inv in H
    as (w1 & w2 & ids & d & r & n & w3 & _ & _ & G2 & _ & _ & _ & H3 & _ & _ & _ & ->).
  rewrite Hl in H3.
  apply distributed_setup_pytorch_inv in H3 as (wi & k & Hi & _ & _ & Hpg & _).
  apply init_dist_ok_inv in Hi as (_ & _ & _ & _ & (g & Hg & Hpg') & _).
  unfold givens in G2. injection G2 as _ _ Hr _ _ _.
  exists k. simpl. congruence.
Qed.

(** In multi-process mode, on a process whose rank in the group is
    greater than 0, a run of [main] makes no directory and sets up no log
    sink up to the hand-over to the trainer, however the run ends: the
    file system and the log sinks are as [main] found them. *)
Theorem other_ranks_leave_the_disk (argv : Args) (w : World) (n r : Z) :
  arg_launcher argv = LauncherPytorch ->
  rendezvous w = Some (n, r) ->
  0 < r ->
  files (final (main argv w)) = files w
  /\ log_sinks (final (main argv w)) = log_sinks w.
Proof.
  intros Hl Hrdv Hr.
  assert (H : disk (final (main argv w)) = disk w).
  { rewrite main_via_resolve.
    pose proof (resolve_options_disk argv w) as D1.
    destruct (resolve_options argv w) as [[o log] w1 | e1 w1] eqn:E1;
      [|exact D1].
    destruct (resolve_options_pytorch_rank _ _ _ _ _ Hl E1) as [n' Hn'].
    assert (Hrank : rank o = r) by congruence.
    assert (E : Z.leb (rank o) 0 = false) by (apply Z.leb_gt; lia).
    assert (E2 : setup_layout o log w1 = Ok tt w1)
      by (unfold setup_layout; now rewrite E).
    rewrite (bind_ok _ _ _ _ _ E2), after_layout_disk. exact D1. }
  unfold disk in H. injection H as H1 H2. auto.
Qed.

Lemma other_ranks_leave_the_disk_witness :
  files (final (main (with_launcher LauncherPytorch default_args) launched_world))
  = ∅
  /\ log_sinks
       (final (main (with_launcher LauncherPytorch default_args) launched_world))
     = [].
Proof.
  apply (other_ranks_leave_the_disk (with_launcher LauncherPytorch default_args)
           launched_world 8 5 eq_refl eq_refl).
  lia.
Defined.

(** ** No trainer without a complete set-up *)

(** The trainer is made and started only in a run where the options
    were resolved and the layout step has returned; in every other run
    [main] ends without any call of the trainer. *)
Theorem trainer_only_after_setup (argv : Args) (w : World) :
  List.filter is_driver (events (main argv) w) <> [] ->
  exists o log w1 w2,
    resolve_options argv w = Ok (o, log) w1
    /\ setup_layout o log w1 = Ok tt w2.
Proof.
  unfold events. rewrite main_via_resolve.
  destruct (resolve_options_block argv w) as [evs1 [T1 B1]].
  destruct (resolve_options argv w) as [[o log] w1 | e1 w1].
  - destruct (quiet_setup_layout o log w1) as [evs2 [T2 B2]].
    destruct (setup_layout o log w1) as [[] w2 | e2 w2] eqn:E2.
    { intros _. exists o, log, w1, w2. split; [reflexivity | exact E2]. }
    rewrite (bind_raise _ _ _ _ _ E2). simpl in *. rewrite T2, T1.
    rewrite <- app_assoc, drop_app_length, List.filter_app.
    rewrite (block_no_driver _ _ _ _ B1) by lia.
    rewrite (block_no_driver _ _ _ _ B2) by (simpl; lia).
    intros H. now contradiction H.
  - simpl in *. rewrite T1, drop_app_length.
    rewrite (block_no_driver _ _ _ _ B1) by lia.
    intros H. now contradiction H.
Qed.

Lemma trainer_only_after_setup_witness :
  exists o log w1 w2,
    resolve_options default_args fresh_world = Ok (o, log) w1
    /\ setup_layout o log w1 = Ok tt w2.
Proof.
  apply (trainer_only_after_setup default_args fresh_world).
  vm_compute. discriminate.
Defined.
